(** * btlewrap: the bleak backend (src/btlewrap/bleakbackend.py)

    A shallow embedding of the retry decorator [wrap_exception] and of the
    [BleakBackend] session methods, followed by the properties of the
    specification that can be stated over it.

    Python code that mutates [self] and talks to the bleak library is
    written in a state-and-exception monad over a [world]: the state of
    the operation at hand together with the ordered trace of the effects
    that were performed (calls made by the decorator, sleeps, debug log
    lines and calls into the transport). *)

From Equations Require Import Equations.
From Stdlib Require Import List Arith Lia String QArith ZArith Bool.
Import ListNotations.
Open Scope string_scope.
Open Scope list_scope.
Open Scope nat_scope.

(* ================================================================== *)
(** * Part I: the model                                                 *)
(* ================================================================== *)

(** ** Module level constants *)

Definition RETRY_LIMIT : nat := 3.

(** Seconds, as handed to [time.sleep]; the decimal literal is read as
    the rational it denotes. *)
Definition RETRY_DELAY : Q := 0.1%Q.

(** ** Python values *)

Definition bytes := list Byte.byte.

(** The exception classes this module can see. [BleakDBusError] derives
    from [BleakError]; [BluetoothBackendException] (btlewrap.base) derives
    from [Exception]; [Derived] stands for any further subclass. *)
Inductive exn_class : Type :=
| Exception
| ImportError
| BleakError
| BleakDBusError
| BluetoothBackendException
| Derived (name : string) (base : exn_class).

(** An exception instance: its class, its constructor arguments and the
    [__cause__] set by [raise ... from ...]. *)
#[warnings="-register-all"] Inductive exn : Type :=
  mk_exn { exn_cls : exn_class; exn_args : list string; exn_cause : option exn }.

Fixpoint class_eqb (c d : exn_class) : bool :=
  match c, d with
  | Exception, Exception => true
  | ImportError, ImportError => true
  | BleakError, BleakError => true
  | BleakDBusError, BleakDBusError => true
  | BluetoothBackendException, BluetoothBackendException => true
  | Derived n b, Derived m b' => String.eqb n m && class_eqb b b'
  | _, _ => false
  end.

(** Method resolution order of a class, itself first. *)
Fixpoint mro (c : exn_class) : list exn_class :=
  c :: match c with
       | Exception => []
       | ImportError => [Exception]
       | BleakError => [Exception]
       | BleakDBusError => [BleakError; Exception]
       | BluetoothBackendException => [Exception]
       | Derived _ b => mro b
       end.

Definition issubclass (c target : exn_class) : bool :=
  existsb (class_eqb target) (mro c).

(** [except (BleakDBusError, BleakError) as exception] *)
Definition except_bleak (e : exn) : bool :=
  existsb (issubclass (exn_cls e)) [BleakDBusError; BleakError].

(** [BluetoothBackendException("not connected to backend")] *)
Definition not_connected : exn :=
  mk_exn BluetoothBackendException ["not connected to backend"] None.

(** What [from bleak import ...] raises when bleak is not installed. *)
Definition no_bleak : exn :=
  mk_exn (Derived "ModuleNotFoundError" ImportError)
         ["No module named 'bleak'"] None.

Inductive outcome (A : Type) : Type :=
| Ret (a : A)
| Raise (e : exn).
Arguments Ret {A} a.
Arguments Raise {A} e.

(** A device as yielded by [BleakScanner.discover]. *)
Record BLEDevice : Type := mk_device { address : string; name : option string }.

(** ** Effects *)

Section Runtime.

(** The connection object handed out by the transport and the delegate
    object supplied by the caller are opaque. *)
Variables Peripheral Delegate : Type.

(** Calls that cross into the transport library. *)
Inductive transport_call : Type :=
| BleakClient_connect (mac : string)
| Peripheral_disconnect (p : Peripheral)
| Peripheral_read_gatt_char (p : Peripheral) (native : Z)
| Peripheral_write_gatt_char (p : Peripheral) (native : Z) (value : bytes) (response : bool)
| Peripheral_withDelegate (p : Peripheral) (d : Delegate)
| Peripheral_waitForNotifications (p : Peripheral) (timeout : Q)
| BleakScanner_discover (timeout : Q).

Inductive event : Type :=
| Call                                 (* the decorator enters the wrapped function *)
| Sleep (seconds : Q)                  (* [time.sleep] *)
| LogDebug (error_count limit : nat)   (* [_LOGGER.debug] of a failed try *)
| Transport (c : transport_call).

(** [S] is the state the operation at hand works on. *)
Variable S : Type.

Record world : Type := mk_world { state : S; trace : list event }.

Definition M (A : Type) : Type := world -> outcome A * world.

Definition ret {A} (a : A) : M A := fun w => (Ret a, w).

Definition raise {A} (e : exn) : M A := fun w => (Raise e, w).

Definition bind {A B} (m : M A) (k : A -> M B) : M B :=
  fun w => match m w with
           | (Ret a, w1) => k a w1
           | (Raise e, w1) => (Raise e, w1)
           end.

Definition emit (ev : event) (w : world) : world :=
  mk_world (state w) (trace w ++ [ev]).

(** An operation that works on the state alone and leaves no event. *)
Definition lift {A} (f : S -> outcome A * S) : M A :=
  fun w => let (r, s1) := f (state w) in (r, mk_world s1 (trace w)).

(** A coroutine object: the suspended body of an [async def]. Calling an
    [async def] only builds the object; the body runs when the object is
    awaited. *)
Inductive coroutine (A : Type) : Type :=
  Coroutine (body : M A).

Definition async_def {Args A} (body : Args -> M A) : Args -> M (coroutine A) :=
  fun args => ret (Coroutine A (body args)).

Definition resume {A} (c : coroutine A) : M A :=
  match c with Coroutine _ body => body end.

(** [await f(args)]: evaluate the call, then run the coroutine it gave. *)
Definition await {A} (call : M (coroutine A)) : M A :=
  bind call resume.

(** ** The retry decorator *)

Definition inspect {X} (x : X) : {y | x = y} := exist _ x eq_refl.

(** The [while error_count < RETRY_LIMIT] loop of [_func_wrapper], entered
    with the current values of its two local variables. *)
Equations? retry_loop {A} (func : M A) (error_count : nat)
    (last_error : option exn) (w : world) : outcome A * world
  by wf (RETRY_LIMIT - error_count) lt :=
  retry_loop func error_count last_error w
    with inspect (error_count <? RETRY_LIMIT) => {
    | exist _ true Hlt with func (emit Call w) => {
        | (Ret v, w1) => (Ret v, w1)
        | (Raise exception, w1) with except_bleak exception => {
            | true =>
                retry_loop func (error_count + 1) (Some exception)
                  (emit (LogDebug (error_count + 1) RETRY_LIMIT)
                     (emit (Sleep RETRY_DELAY) w1))
            | false => (Raise exception, w1) } }
    | exist _ false _ =>
        (Raise (mk_exn BluetoothBackendException [] last_error), w) }.
Proof.
  apply Nat.ltb_lt in Hlt. unfold RETRY_LIMIT in Hlt.
  change (RETRY_LIMIT - (error_count + 1) < RETRY_LIMIT - error_count).
  unfold RETRY_LIMIT. lia.
Qed.

Definition _func_wrapper {A} (func : M A) : M A :=
  retry_loop func 0 None.

(** [wrap_exception]: the decorator proper. When bleak cannot be imported
    it hands back [func] itself. *)
Definition wrap_exception (bleak_installed : bool) {Args A}
    (func : Args -> M A) : Args -> M A :=
  if bleak_installed then fun args => _func_wrapper (func args) else func.

(** ** Reading a trace *)

Definition is_call (ev : event) : bool :=
  match ev with Call => true | _ => false end.

(** Number of times the decorator entered the wrapped function. *)
Definition attempts (tr : list event) : nat :=
  List.length (filter is_call tr).

(** The sleeps of a trace, in order. *)
Fixpoint delays (tr : list event) : list Q :=
  match tr with
  | [] => []
  | Sleep d :: tr' => d :: delays tr'
  | _ :: tr' => delays tr'
  end.

(** The calls into the transport of a trace, in order. *)
Fixpoint transport_calls (tr : list event) : list transport_call :=
  match tr with
  | [] => []
  | Transport c :: tr' => c :: transport_calls tr'
  | _ :: tr' => transport_calls tr'
  end.

(** No two attempts without a sleep of [RETRY_DELAY] in between. [pending]
    says that an attempt was seen and no such sleep since. *)
Fixpoint delay_between_attempts (pending : bool) (tr : list event) : bool :=
  match tr with
  | [] => true
  | Call :: tr' => negb pending && delay_between_attempts true tr'
  | Sleep d :: tr' =>
      delay_between_attempts (pending && negb (Qeq_bool d RETRY_DELAY)) tr'
  | _ :: tr' => delay_between_attempts pending tr'
  end.

(** ** Describing a flaky operation *)

(** [transient_failures f k s]: call [f] [k] times in a row from [s]; when
    each of the calls raises an exception the decorator catches, the
    exceptions in order and the state left behind. *)
Fixpoint transient_failures {A} (f : S -> outcome A * S) (k : nat) (s : S)
  : option (list exn * S) :=
  match k with
  | 0 => Some ([], s)
  | Datatypes.S k' =>
      match f s with
      | (Raise e, s1) =>
          if except_bleak e then
            match transient_failures f k' s1 with
            | Some (es, s2) => Some (e :: es, s2)
            | None => None
            end
          else None
      | (Ret _, _) => None
      end
  end.

(** How many of the first [n] calls of [f] from [s] raise a caught
    exception before one does not. *)
Fixpoint leading_failures {A} (f : S -> outcome A * S) (n : nat) (s : S) : nat :=
  match n with
  | 0 => 0
  | Datatypes.S n' =>
      match f s with
      | (Raise e, s1) =>
          if except_bleak e then Datatypes.S (leading_failures f n' s1) else 0
      | (Ret _, _) => 0
      end
  end.

(** The events the decorator leaves for [k] caught failures in a row, the
    first of them being failure number [error_count + 1]. *)
Fixpoint retry_events (error_count k : nat) : list event :=
  match k with
  | 0 => []
  | Datatypes.S k' =>
      [Call; Sleep RETRY_DELAY; LogDebug (error_count + 1) RETRY_LIMIT]
        ++ retry_events (error_count + 1) k'
  end.

End Runtime.

Arguments Call {Peripheral Delegate}.
Arguments Sleep {Peripheral Delegate} seconds.
Arguments LogDebug {Peripheral Delegate} error_count limit.
Arguments Transport {Peripheral Delegate} c.
Arguments BleakClient_connect {Peripheral Delegate} mac.
Arguments Peripheral_disconnect {Peripheral Delegate} p.
Arguments Peripheral_read_gatt_char {Peripheral Delegate} p native.
Arguments Peripheral_write_gatt_char {Peripheral Delegate} p native value response.
Arguments Peripheral_withDelegate {Peripheral Delegate} p d.
Arguments Peripheral_waitForNotifications {Peripheral Delegate} p timeout.
Arguments BleakScanner_discover {Peripheral Delegate} timeout.
Arguments mk_world {Peripheral Delegate S} state trace.
Arguments state {Peripheral Delegate S} w.
Arguments trace {Peripheral Delegate S} w.
Arguments ret {Peripheral Delegate S A} a w.
Arguments raise {Peripheral Delegate S A} e w.
Arguments bind {Peripheral Delegate S A B} m k w.
Arguments emit {Peripheral Delegate S} ev w.
Arguments lift {Peripheral Delegate S A} f w.
Arguments Coroutine {Peripheral Delegate S A} body.
Arguments async_def {Peripheral Delegate S Args A} body args w.
Arguments resume {Peripheral Delegate S A} c w.
Arguments await {Peripheral Delegate S A} call w.
Arguments retry_loop {Peripheral Delegate S A} func error_count last_error w.
Arguments _func_wrapper {Peripheral Delegate S A} func w.
Arguments wrap_exception {Peripheral Delegate S} bleak_installed {Args A} func args w.
Arguments attempts {Peripheral Delegate} tr.
Arguments delays {Peripheral Delegate} tr.
Arguments transport_calls {Peripheral Delegate} tr.
Arguments delay_between_attempts {Peripheral Delegate} pending tr.
Arguments transient_failures {S A} f k s.
Arguments leading_failures {S A} f n s.
Arguments retry_events {Peripheral Delegate} error_count k.

Declare Scope py_scope.
Delimit Scope py_scope with py.
Notation "x <- m ;; k" := (bind m (fun x => k))
  (at level 61, m at next level, right associativity) : py_scope.
Notation "m ;; k" := (bind m (fun _ => k))
  (at level 61, right associativity) : py_scope.

(** ** The backend session *)

Section Session.

Variables Peripheral Delegate : Type.

(** [T] is whatever the transport library and the radio keep to
    themselves. The library is a black box: each primitive is a function
    of that hidden state which returns a value or raises. *)
Variable T : Type.

Record Bleak : Type := mk_bleak {
  (* [BleakClient(mac).connect()]: a connection object, never [None] *)
  bleak_connect : string -> T -> outcome Peripheral * T;
  (* [peripheral.disconnect()] *)
  bleak_disconnect : Peripheral -> T -> outcome unit * T;
  (* [peripheral.read_gatt_char(native)] *)
  bleak_read_gatt_char : Peripheral -> Z -> T -> outcome bytes * T;
  (* [peripheral.write_gatt_char(native, value, response)] *)
  bleak_write_gatt_char : Peripheral -> Z -> bytes -> bool -> T -> outcome unit * T;
  (* [peripheral.withDelegate(delegate)] *)
  bleak_withDelegate : Peripheral -> Delegate -> T -> outcome unit * T;
  (* [peripheral.waitForNotifications(timeout)] *)
  bleak_waitForNotifications : Peripheral -> Q -> T -> outcome bool * T;
  (* [BleakScanner().discover(timeout)] *)
  bleak_discover : Q -> T -> outcome (list BLEDevice) * T }.

(** The instance attributes of a [BleakBackend]. [_peripheral] is [None]
    while disconnected and holds the connection object while connected. *)
Record BleakBackend : Type := mk_backend {
  adapter : string;
  address_type : string;
  _peripheral : option Peripheral }.

Definition __init__ (adapter address_type : string) : BleakBackend :=
  mk_backend adapter address_type None.

(** One backend object and the transport it talks to. *)
Record session : Type := mk_session { self : BleakBackend; radio : T }.

Local Abbreviation W := (world Peripheral Delegate session).
Local Abbreviation Mo := (M Peripheral Delegate session).
Local Open Scope py_scope.

(** [self._peripheral] read and written. *)
Definition get_peripheral : Mo (option Peripheral) :=
  fun w => (Ret (_peripheral (self (state w))), w).

Definition set_peripheral (p : option Peripheral) : Mo unit :=
  fun w =>
    let s := state w in
    (Ret tt,
     mk_world
       (mk_session (mk_backend (adapter (self s)) (address_type (self s)) p)
                   (radio s))
       (trace w)).

(** A call into the transport: it is recorded, and the library answers. *)
Definition transport {A} (c : transport_call Peripheral Delegate)
    (f : T -> outcome A * T) : Mo A :=
  fun w =>
    let s := state w in
    let (r, t1) := f (radio s) in
    (r, mk_world (mk_session (self s) t1) (trace w ++ [Transport c])).

Variable bleak : Bleak.

(** Whether [import bleak] succeeds in this interpreter. *)
Variable bleak_installed : bool.

(** [AbstractBackend._DATA_MODE_LISTEN], inherited from btlewrap.base. *)
Variable _DATA_MODE_LISTEN : bytes.

(** [from bleak import ...] inside a function body. *)
Definition import_bleak : Mo unit :=
  if bleak_installed then ret tt else raise no_bleak.

(** *** connect *)

Definition connect_body (mac : string) : Mo unit :=
  import_bleak ;;
  p <- transport (BleakClient_connect mac) (bleak_connect bleak mac) ;;
  set_peripheral (Some p).

Definition connect : string -> Mo (coroutine Peripheral Delegate session unit) :=
  wrap_exception bleak_installed (async_def connect_body).

(** *** disconnect *)

Definition disconnect_body (_ : unit) : Mo unit :=
  cur <- get_peripheral ;;
  match cur with
  | None => ret tt
  | Some p =>
      transport (Peripheral_disconnect p) (bleak_disconnect bleak p) ;;
      set_peripheral None
  end.

Definition disconnect : unit -> Mo (coroutine Peripheral Delegate session unit) :=
  wrap_exception bleak_installed (async_def disconnect_body).

(** *** read_handle *)

Definition read_handle_body (handle : Z) : Mo bytes :=
  cur <- get_peripheral ;;
  match cur with
  | None => raise not_connected
  | Some p =>
      transport (Peripheral_read_gatt_char p (handle - 1))
                (bleak_read_gatt_char bleak p (handle - 1))
  end.

Definition read_handle : Z -> Mo (coroutine Peripheral Delegate session bytes) :=
  wrap_exception bleak_installed (async_def read_handle_body).

(** *** write_handle *)

Definition write_handle_body (args : Z * bytes) : Mo unit :=
  let '(handle, value) := args in
  cur <- get_peripheral ;;
  match cur with
  | None => raise not_connected
  | Some p =>
      transport (Peripheral_write_gatt_char p (handle - 1) value true)
                (bleak_write_gatt_char bleak p (handle - 1) value true)
  end.

Definition write_handle : Z * bytes -> Mo (coroutine Peripheral Delegate session unit) :=
  wrap_exception bleak_installed (async_def write_handle_body).

(** *** wait_for_notification

    [self.write_handle(handle, self._DATA_MODE_LISTEN)] stands in the body
    as a plain call statement: the coroutine object it yields is dropped
    without being awaited. [withDelegate] and [waitForNotifications] are
    called on the connection object directly. *)
Definition wait_for_notification_body (args : Z * Delegate * Q) : Mo bool :=
  let '(handle, delegate, notification_timeout) := args in
  cur <- get_peripheral ;;
  match cur with
  | None => raise not_connected
  | Some p =>
      _ <- write_handle (handle, _DATA_MODE_LISTEN) ;;
      transport (Peripheral_withDelegate p delegate)
                (bleak_withDelegate bleak p delegate) ;;
      transport (Peripheral_waitForNotifications p notification_timeout)
                (bleak_waitForNotifications bleak p notification_timeout)
  end.

Definition wait_for_notification
  : Z * Delegate * Q -> Mo (coroutine Peripheral Delegate session bool) :=
  wrap_exception bleak_installed (async_def wait_for_notification_body).

(** *** scan_for_devices (a static method: no [self]) *)

Definition scan_for_devices_body (args : Q * string)
  : Mo (list (string * option string)) :=
  let '(timeout, adapter) := args in
  import_bleak ;;
  devices <- transport (BleakScanner_discover timeout) (bleak_discover bleak timeout) ;;
  ret (fold_left
         (fun result device => result ++ [(address device, name device)])
         devices []).

Definition scan_for_devices
  : Q * string -> Mo (coroutine Peripheral Delegate session (list (string * option string))) :=
  wrap_exception bleak_installed (async_def scan_for_devices_body).

(** *** Sequences of operations

    A caller that awaits one operation after the other and carries on
    whatever each of them returned or raised. *)
Inductive op : Type :=
| OpConnect (mac : string)
| OpDisconnect
| OpReadHandle (handle : Z)
| OpWriteHandle (handle : Z) (value : bytes)
| OpWaitForNotification (handle : Z) (delegate : Delegate) (timeout : Q)
| OpScanForDevices (timeout : Q) (adapter : string).

Definition run_op (o : op) (w : W) : W :=
  match o with
  | OpConnect mac => snd (await (connect mac) w)
  | OpDisconnect => snd (await (disconnect tt) w)
  | OpReadHandle h => snd (await (read_handle h) w)
  | OpWriteHandle h v => snd (await (write_handle (h, v)) w)
  | OpWaitForNotification h d t => snd (await (wait_for_notification (h, d, t)) w)
  | OpScanForDevices t a => snd (await (scan_for_devices (t, a)) w)
  end.

Definition run_ops (os : list op) (w : W) : W :=
  fold_left (fun w o => run_op o w) os w.

(** The two session states of the specification. *)
Definition Disconnected (w : W) : Prop := _peripheral (self (state w)) = None.
Definition Connected (w : W) (p : Peripheral) : Prop :=
  _peripheral (self (state w)) = Some p.

End Session.

Arguments mk_bleak {Peripheral Delegate T}.
Arguments bleak_connect {Peripheral Delegate T} b mac t.
Arguments bleak_disconnect {Peripheral Delegate T} b p t.
Arguments bleak_read_gatt_char {Peripheral Delegate T} b p native t.
Arguments bleak_write_gatt_char {Peripheral Delegate T} b p native value response t.
Arguments bleak_withDelegate {Peripheral Delegate T} b p d t.
Arguments bleak_waitForNotifications {Peripheral Delegate T} b p timeout t.
Arguments bleak_discover {Peripheral Delegate T} b timeout t.
Arguments mk_backend {Peripheral} adapter address_type _peripheral.
Arguments adapter {Peripheral} b.
Arguments address_type {Peripheral} b.
Arguments _peripheral {Peripheral} b.
Arguments __init__ {Peripheral} adapter address_type.
Arguments mk_session {Peripheral T} self radio.
Arguments self {Peripheral T} s.
Arguments radio {Peripheral T} s.
Arguments get_peripheral {Peripheral Delegate T} w.
Arguments set_peripheral {Peripheral Delegate T} p w.
Arguments transport {Peripheral Delegate T A} c f w.
Arguments import_bleak {Peripheral Delegate T} bleak_installed w.
Arguments connect_body {Peripheral Delegate T} bleak bleak_installed mac w.
Arguments connect {Peripheral Delegate T} bleak bleak_installed mac w.
Arguments disconnect_body {Peripheral Delegate T} bleak _ w.
Arguments disconnect {Peripheral Delegate T} bleak bleak_installed _ w.
Arguments read_handle_body {Peripheral Delegate T} bleak handle w.
Arguments read_handle {Peripheral Delegate T} bleak bleak_installed handle w.
Arguments write_handle_body {Peripheral Delegate T} bleak args w.
Arguments write_handle {Peripheral Delegate T} bleak bleak_installed args w.
Arguments wait_for_notification_body {Peripheral Delegate T}
  bleak bleak_installed _DATA_MODE_LISTEN args w.
Arguments wait_for_notification {Peripheral Delegate T}
  bleak bleak_installed _DATA_MODE_LISTEN args w.
Arguments scan_for_devices_body {Peripheral Delegate T} bleak bleak_installed args w.
Arguments scan_for_devices {Peripheral Delegate T} bleak bleak_installed args w.
Arguments OpConnect {Delegate} mac.
Arguments OpDisconnect {Delegate}.
Arguments OpReadHandle {Delegate} handle.
Arguments OpWriteHandle {Delegate} handle value.
Arguments OpWaitForNotification {Delegate} handle delegate timeout.
Arguments OpScanForDevices {Delegate} timeout adapter.
Arguments run_op {Peripheral Delegate T} bleak bleak_installed _DATA_MODE_LISTEN o w.
Arguments run_ops {Peripheral Delegate T} bleak bleak_installed _DATA_MODE_LISTEN os w.
Arguments Disconnected {Peripheral Delegate T} w.
Arguments Connected {Peripheral Delegate T} w p.

(** ** Operations and a transport to run the model on *)

(** A tally of [n] strokes, to tell exceptions apart. *)
Fixpoint strokes (n : nat) : string :=
  match n with
  | 0 => ""
  | Datatypes.S n' => ("I" ++ strokes n')%string
  end.

(** An operation that raises [BleakError] as long as its counter is
    positive, counting down, and returns ["ok"] from then on. *)
Definition flaky (n : nat) : outcome string * nat :=
  match n with
  | 0 => (Ret "ok", 0)
  | Datatypes.S n' => (Raise (mk_exn BleakError [strokes n] None), n')
  end.

(** An operation that raises [ValueError] and counts its calls. *)
Definition faulty (n : nat) : outcome string * nat :=
  (Raise (mk_exn (Derived "ValueError" Exception) ["bad handle"] None),
   Datatypes.S n).

Definition dbus_error : exn :=
  mk_exn BleakDBusError ["org.bluez.Error.Failed"] None.

(** A transport whose hidden state is the number of calls that are still
    going to fail; every primitive raises [dbus_error] while it is
    positive and gives a fixed answer afterwards. *)
Definition answer {A} (a : A) (t : nat) : outcome A * nat :=
  match t with
  | 0 => (Ret a, 0)
  | Datatypes.S t' => (Raise dbus_error, t')
  end.

Definition advertisements : list BLEDevice :=
  [ mk_device "C4:7C:8D:6A:3E:7A" (Some "Flower care");
    mk_device "AA:BB:CC:DD:EE:FF" None;
    mk_device "C4:7C:8D:6A:3E:7A" (Some "Flower care") ].

Definition scripted_bleak : @Bleak nat nat nat :=
  mk_bleak
    (fun _ => answer 1)
    (fun _ => answer tt)
    (fun _ _ => answer [Byte.x64; Byte.x27])
    (fun _ _ _ _ => answer tt)
    (fun _ _ => answer tt)
    (fun _ _ => answer true)
    (fun _ => answer advertisements).

Definition listen : bytes := [Byte.x01; Byte.x00].

(** A session on [scripted_bleak], with [failing] transport calls still
    going to fail. *)
Definition session_at (cur : option nat) (failing : nat)
  : world nat nat (@session nat nat) :=
  mk_world (mk_session (mk_backend "hci0" "public" cur) failing) [].


(** ** Further readings of a trace *)

(** The debug log lines of a trace, in order: try number and limit. *)
Fixpoint logs {Peripheral Delegate : Type}
    (tr : list (event Peripheral Delegate)) : list (nat * nat) :=
  match tr with
  | [] => []
  | LogDebug n limit :: tr' => (n, limit) :: logs tr'
  | _ :: tr' => logs tr'
  end.

(** [keeps R m]: whatever [m] does, the world it leaves is related by [R]
    to the world it found. *)
Definition keeps {Peripheral Delegate S A : Type}
    (R : world Peripheral Delegate S -> world Peripheral Delegate S -> Prop)
    (m : M Peripheral Delegate S A) : Prop :=
  forall w, R w (snd (m w)).

(** ** The capability probe (static methods, not decorated) *)

(** The records [_LOGGER.error] has written: each holds the exception
    whose text went into the line "bleak not found: %s". *)
Definition error_log : Type := list exn.

Definition supports_scanning_body {Peripheral Delegate S : Type} (_ : unit)
  : M Peripheral Delegate S bool :=
  ret true.

Definition supports_scanning {Peripheral Delegate S : Type}
  : unit -> M Peripheral Delegate S (coroutine Peripheral Delegate S bool) :=
  async_def supports_scanning_body.

(** [try: from bleak import BleakClient; return True], with the
    [except ImportError as importerror] clause that logs and falls
    through to [return False]. *)
Definition check_backend_body {Peripheral Delegate : Type}
    (bleak_installed : bool) (_ : unit)
  : M Peripheral Delegate error_log bool :=
  fun w =>
    match (if bleak_installed then ret tt else raise no_bleak) w with
    | (Ret _, w1) => (Ret true, w1)
    | (Raise importerror, w1) =>
        if issubclass (exn_cls importerror) ImportError then
          (Ret false, mk_world (state w1 ++ [importerror]) (trace w1))
        else (Raise importerror, w1)
    end.

Definition check_backend {Peripheral Delegate : Type} (bleak_installed : bool)
  : unit -> M Peripheral Delegate error_log
              (coroutine Peripheral Delegate error_log bool) :=
  async_def (check_backend_body bleak_installed).

(** ** One more operation to run the model on *)

(** An operation that raises [BleakError] while its counter is positive,
    counting down, and [KeyError] once it is zero. *)
Definition moody (n : nat) : outcome string * nat :=
  match n with
  | 0 => (Raise (mk_exn (Derived "KeyError" Exception) ["0x33"] None), 0)
  | Datatypes.S n' => (Raise (mk_exn BleakError [strokes n] None), n')
  end.


(* ================================================================== *)
(** * Part II: properties                                               *)
(* ================================================================== *)

(** ** The retry loop, one iteration at a time *)

Section RetryLoop.

Context {Peripheral Delegate S A : Type}.

Local Abbreviation W := (world Peripheral Delegate S).

Lemma retry_loop_step (func : M Peripheral Delegate S A)
    (error_count : nat) (last_error : option exn) (w : W) :
  retry_loop func error_count last_error w =
  if error_count <? RETRY_LIMIT then
    match func (emit Call w) with
    | (Ret v, w1) => (Ret v, w1)
    | (Raise exception, w1) =>
        if except_bleak exception then
          retry_loop func (error_count + 1) (Some exception)
            (emit (LogDebug (error_count + 1) RETRY_LIMIT)
               (emit (Sleep RETRY_DELAY) w1))
        else (Raise exception, w1)
    end
  else (Raise (mk_exn BluetoothBackendException [] last_error), w).
Proof.
  funelim (retry_loop func error_count last_error w);
    try match goal with H : (_ <? _) = _ |- _ => rewrite H end;
    try match goal with H : func _ = _ |- _ => rewrite H end;
    try match goal with H : except_bleak _ = _ |- _ => rewrite H end;
    reflexivity.
Qed.

(** Past the limit the loop is over: the exception of the last failed try
    becomes the cause of a [BluetoothBackendException]. *)
Lemma retry_loop_exhausted (func : M Peripheral Delegate S A)
    (last_error : option exn) (w : W) :
  retry_loop func RETRY_LIMIT last_error w =
  (Raise (mk_exn BluetoothBackendException [] last_error), w).
Proof. rewrite retry_loop_step. reflexivity. Qed.

Lemma last_skips_default {X} (l : list X) (x d d' : X) :
  last (x :: l) d = last (x :: l) d'.
Proof.
  revert x. induction l as [| y l IH]; intros x; [reflexivity |].
  change (last (y :: l) d = last (y :: l) d'). apply IH.
Qed.

Lemma last_cons_default {X} (l : list X) (x d : X) :
  last (x :: l) d = last l x.
Proof.
  destruct l as [| y l]; [reflexivity |].
  change (last (y :: l) d = last (y :: l) x). apply last_skips_default.
Qed.

(** [k] caught failures in a row take the loop [k] iterations further. *)
Lemma retry_loop_failures (f : S -> outcome A * S) (k : nat) :
  forall (error_count : nat) (last_error : option exn) (s sk : S)
         (errs : list exn) (tr : list (event Peripheral Delegate)),
    transient_failures f k s = Some (errs, sk) ->
    error_count + k <= RETRY_LIMIT ->
    retry_loop (lift f) error_count last_error (mk_world s tr) =
    retry_loop (lift f) (error_count + k) (last (map Some errs) last_error)
      (mk_world sk (tr ++ retry_events error_count k)).
Proof.
  induction k as [| k IH]; intros ec le s sk errs tr Hf Hle; simpl in Hf.
  - injection Hf as <- <-. simpl. rewrite Nat.add_0_r, app_nil_r. reflexivity.
  - destruct (f s) as [[v | e] s1] eqn:Hfs; [discriminate |].
    destruct (except_bleak e) eqn:He; [| discriminate].
    destruct (transient_failures f k s1) as [[es s2] |] eqn:Hrec; [| discriminate].
    injection Hf as <- <-.
    rewrite retry_loop_step.
    replace (ec <? RETRY_LIMIT) with true
      by (symmetry; apply Nat.ltb_lt; lia).
    unfold lift at 1, emit at 1. simpl state. rewrite Hfs, He.
    unfold emit. simpl state. simpl trace.
    rewrite (IH (ec + 1) (Some e) s1 s2 es _ Hrec) by lia.
    replace (ec + 1 + k) with (ec + Datatypes.S k) by lia.
    simpl map. rewrite last_cons_default.
    simpl retry_events. rewrite <- !app_assoc. reflexivity.
Qed.

(** A run of failures splits at any point. *)
Lemma transient_failures_split (f : S -> outcome A * S) (a b : nat) :
  forall (s sk : S) (errs : list exn),
    transient_failures f (a + b) s = Some (errs, sk) ->
    exists sa,
      transient_failures f a s = Some (firstn a errs, sa) /\
      transient_failures f b sa = Some (skipn a errs, sk).
Proof.
  induction a as [| a IH]; intros s sk errs Hf.
  - exists s. split; [reflexivity | exact Hf].
  - simpl in Hf. simpl.
    destruct (f s) as [[v | e] s1]; [discriminate |].
    destruct (except_bleak e); [| discriminate].
    destruct (transient_failures f (a + b) s1) as [[es s2] |] eqn:Hrec;
      [| discriminate].
    injection Hf as <- <-.
    destruct (IH _ _ _ Hrec) as [sa [Ha Hb]].
    exists sa. rewrite Ha. split; [reflexivity | exact Hb].
Qed.

Lemma transient_failures_length (f : S -> outcome A * S) (k : nat) :
  forall (s sk : S) (errs : list exn),
    transient_failures f k s = Some (errs, sk) -> List.length errs = k.
Proof.
  induction k as [| k IH]; intros s sk errs Hf; simpl in Hf.
  - injection Hf as <- _. reflexivity.
  - destruct (f s) as [[v | e] s1]; [discriminate |].
    destruct (except_bleak e); [| discriminate].
    destruct (transient_failures f k s1) as [[es s2] |] eqn:Hrec;
      [| discriminate].
    injection Hf as <- _. simpl. f_equal. eapply IH. exact Hrec.
Qed.

Lemma attempts_app (a b : list (event Peripheral Delegate)) :
  attempts (a ++ b) = attempts a + attempts b.
Proof. unfold attempts. rewrite filter_app, length_app. reflexivity. Qed.

Lemma delays_app (a b : list (event Peripheral Delegate)) :
  delays (a ++ b) = delays a ++ delays b.
Proof.
  induction a as [| ev a IH]; [reflexivity |].
  destruct ev; simpl; rewrite IH; reflexivity.
Qed.

Lemma transport_calls_app (a b : list (event Peripheral Delegate)) :
  transport_calls (a ++ b) = transport_calls a ++ transport_calls b.
Proof.
  induction a as [| ev a IH]; [reflexivity |].
  destruct ev; simpl; rewrite IH; reflexivity.
Qed.

End RetryLoop.

(** ** The retry decorator *)

Section RetryWrapper.

Context {Peripheral Delegate S A : Type}.

Local Abbreviation W := (world Peripheral Delegate S).
Local Abbreviation events := (list (event Peripheral Delegate)).


(** C5. An operation whose call raises an exception outside the caught
    classes is entered once; the exception reaches the caller as it is,
    no sleep is made and nothing is logged. The not-connected
    [BluetoothBackendException] is such an exception. *)
Theorem non_transient_propagates
    (f : S -> outcome A * S) (s s' : S) (e : exn) (tr : events) :
  f s = (Raise e, s') ->
  except_bleak e = false ->
  let w' := snd (_func_wrapper (lift f) (mk_world s tr)) in
  _func_wrapper (lift f) (mk_world s tr) = (Raise e, mk_world s' (tr ++ [Call]))
  /\ attempts (trace w') = attempts tr + 1
  /\ delays (trace w') = delays tr
  /\ except_bleak not_connected = false.
Proof.
  intros Hf He w'.
  assert (Hrun : _func_wrapper (lift f) (mk_world s tr)
                 = (Raise e, mk_world s' (tr ++ [Call]))).
  { unfold _func_wrapper. rewrite retry_loop_step. simpl (0 <? RETRY_LIMIT).
    unfold lift, emit. simpl state. rewrite Hf, He. reflexivity. }
  subst w'. rewrite Hrun. simpl snd. simpl trace.
  rewrite attempts_app, delays_app. simpl.
  rewrite app_nil_r. repeat split; reflexivity.
Qed.

(** The sleeps of a run of the loop entered at [error_count]: one per
    caught failure among the tries that are left. *)
Lemma retry_loop_delays (f : S -> outcome A * S) (m : nat) :
  forall (error_count : nat) (last_error : option exn) (s : S) (tr : events),
    m = RETRY_LIMIT - error_count ->
    delays (trace (snd (retry_loop (lift f) error_count last_error (mk_world s tr))))
    = delays tr ++ repeat RETRY_DELAY (leading_failures f m s).
Proof.
  induction m as [| m IH]; intros ec le s tr Hm; rewrite retry_loop_step.
  - replace (ec <? RETRY_LIMIT) with false by (symmetry; apply Nat.ltb_ge; lia).
    simpl. rewrite app_nil_r. reflexivity.
  - replace (ec <? RETRY_LIMIT) with true by (symmetry; apply Nat.ltb_lt; lia).
    unfold lift at 1, emit at 1. simpl state. simpl leading_failures.
    destruct (f s) as [[v | e] s1].
    + simpl. rewrite delays_app, app_nil_r. simpl. rewrite app_nil_r. reflexivity.
    + destruct (except_bleak e).
      * unfold emit. simpl state. simpl trace.
        rewrite (IH (ec + 1) (Some e) s1 _) by lia.
        rewrite !delays_app. simpl. rewrite ?app_nil_r, <- ?app_assoc. reflexivity.
      * simpl. rewrite delays_app, app_nil_r. simpl. rewrite app_nil_r. reflexivity.
Qed.

Lemma leading_failures_full (f : S -> outcome A * S) (n : nat) :
  forall (s : S),
    leading_failures f n s = n ->
    exists errs sn, transient_failures f n s = Some (errs, sn).
Proof.
  induction n as [| n IH]; intros s Hn; simpl in *.
  - eauto.
  - destruct (f s) as [[v | e] s1]; [discriminate |].
    destruct (except_bleak e); [| discriminate].
    injection Hn as Hn. destruct (IH _ Hn) as [errs [sn Hrec]].
    rewrite Hrec. eauto.
Qed.

(** C10. In every run of the decorator each caught failure is followed by
    one sleep of [RETRY_DELAY]; a run that uses up the three tries is the
    sequence try, sleep, log, three times over, so three sleeps are made
    before [BluetoothBackendException] is raised, the last of them after
    the third and final try. *)
Theorem delay_after_every_caught_failure
    (f : S -> outcome A * S) (s : S) (tr : events) :
  let run := _func_wrapper (lift f) (mk_world s tr) in
  let caught := leading_failures f RETRY_LIMIT s in
  delays (trace (snd run)) = delays tr ++ repeat RETRY_DELAY caught
  /\
  (caught = RETRY_LIMIT ->
     (exists last_error,
         fst run = Raise (mk_exn BluetoothBackendException [] (Some last_error)))
     /\ trace (snd run) =
          tr ++ [Call; Sleep RETRY_DELAY; LogDebug 1 3;
                 Call; Sleep RETRY_DELAY; LogDebug 2 3;
                 Call; Sleep RETRY_DELAY; LogDebug 3 3]
     /\ attempts (trace (snd run)) = attempts tr + 3
     /\ delays (trace (snd run))
        = delays tr ++ [RETRY_DELAY; RETRY_DELAY; RETRY_DELAY]).
Proof.
  intros run caught. split.
  - subst run caught. unfold _func_wrapper.
    apply retry_loop_delays. reflexivity.
  - intros Hall. subst caught.
    destruct (leading_failures_full f _ _ Hall) as [errs [s3 H3]].
    assert (Hrun : run = retry_loop (lift f) RETRY_LIMIT (last (map Some errs) None)
                           (mk_world s3 (tr ++ retry_events 0 RETRY_LIMIT))).
    { subst run. unfold _func_wrapper.
      rewrite (retry_loop_failures f RETRY_LIMIT 0 None s s3 errs tr H3)
        by (unfold RETRY_LIMIT; lia).
      reflexivity. }
    rewrite retry_loop_exhausted in Hrun. rewrite Hrun. simpl fst. simpl snd.
    simpl trace. split; [| split; [reflexivity | split]].
    + pose proof (transient_failures_length f _ _ _ _ H3) as Hlen.
      destruct errs as [| e1 [| e2 [| e3 [| e4 rest]]]]; try discriminate Hlen.
      exists e3. reflexivity.
    + rewrite attempts_app. reflexivity.
    + rewrite delays_app. reflexivity.
Qed.

End RetryWrapper.

(** ** Decorated coroutine functions *)

Section Async.

Context {Peripheral Delegate S Args R : Type}.

Local Abbreviation W := (world Peripheral Delegate S).

(** Calling an [async def] cannot raise, so the decorator returns the
    coroutine object from its first try. *)
Lemma wrapper_async_def (body : Args -> M Peripheral Delegate S R)
    (args : Args) (w : W) :
  _func_wrapper (async_def body args) w
  = (Ret (Coroutine (body args)), emit Call w).
Proof. unfold _func_wrapper. rewrite retry_loop_step. reflexivity. Qed.

(** Awaiting a decorated coroutine function runs its body once, after the
    decorator has returned. *)
Lemma await_wrapped (b : bool) (body : Args -> M Peripheral Delegate S R)
    (args : Args) (w : W) :
  await (wrap_exception b (async_def body) args) w
  = body args (if b then emit Call w else w).
Proof.
  unfold await, bind, wrap_exception. destruct b.
  - rewrite wrapper_async_def. reflexivity.
  - reflexivity.
Qed.

(** So an exception raised by the body, of whatever class, is raised
    outside the [try] of the decorator and is not retried. *)
Lemma coroutine_errors_bypass_retry (b : bool)
    (body : Args -> M Peripheral Delegate S R) (args : Args) (w w' : W) (e : exn) :
  body args (if b then emit Call w else w) = (Raise e, w') ->
  await (wrap_exception b (async_def body) args) w = (Raise e, w').
Proof. intros Hbody. rewrite await_wrapped. exact Hbody. Qed.

(** Calling it without awaiting only makes the coroutine object. *)
Lemma call_wrapped (b : bool) (body : Args -> M Peripheral Delegate S R)
    (args : Args) (w : W) :
  wrap_exception b (async_def body) args w
  = (Ret (Coroutine (body args)), if b then emit Call w else w).
Proof.
  unfold wrap_exception. destruct b.
  - apply wrapper_async_def.
  - reflexivity.
Qed.

End Async.

(** [scan_for_devices] builds its result by appending to a list. *)
Lemma fold_append_map {X Y : Type} (g : X -> Y) (l : list X) :
  forall acc : list Y,
    fold_left (fun result x => result ++ [g x]) l acc = acc ++ map g l.
Proof.
  induction l as [| x l IH]; intros acc; simpl.
  - rewrite app_nil_r. reflexivity.
  - rewrite IH, <- app_assoc. reflexivity.
Qed.

(** ** The session *)

Section SessionProperties.

Context {Peripheral Delegate T : Type}.
Variable bleak : @Bleak Peripheral Delegate T.
Variable bleak_installed : bool.
Variable _DATA_MODE_LISTEN : bytes.

Local Abbreviation W := (world Peripheral Delegate (@session Peripheral T)).
Local Abbreviation entered w := (if bleak_installed then emit Call w else w).
Local Abbreviation run_op' := (run_op bleak bleak_installed _DATA_MODE_LISTEN).
Local Abbreviation run_ops' := (run_ops bleak bleak_installed _DATA_MODE_LISTEN).

Ltac enter :=
  unfold connect, disconnect, read_handle, write_handle,
    wait_for_notification, scan_for_devices;
  rewrite ?await_wrapped.

Ltac step_body :=
  unfold connect_body, disconnect_body, read_handle_body, write_handle_body,
    wait_for_notification_body, scan_for_devices_body, import_bleak,
    bind, get_peripheral, set_peripheral, transport, raise, ret;
  cbv beta zeta.

Lemma entered_state (w : W) : state (entered w) = state w.
Proof. destruct bleak_installed; reflexivity. Qed.

Lemma entered_transport_calls (w : W) :
  transport_calls (trace (entered w)) = transport_calls (trace w).
Proof.
  destruct bleak_installed; [| reflexivity].
  unfold emit. simpl. rewrite transport_calls_app. simpl.
  apply app_nil_r.
Qed.

Ltac with_token H :=
  rewrite ?entered_state, H; cbv beta iota; rewrite ?entered_state.

(** C3. Whatever operations came before, when the session is
    disconnected [read_handle], [write_handle] and [wait_for_notification]
    raise the not-connected [BluetoothBackendException]; the transport is
    not called and its state is untouched. *)
Theorem not_connected_precondition
    (os : list (@op Delegate)) (w0 : W) (h : Z) (v : bytes) (d : Delegate) (t : Q) :
  let w := run_ops' os w0 in
  Disconnected w ->
  await (read_handle bleak bleak_installed h) w = (Raise not_connected, entered w)
  /\ await (write_handle bleak bleak_installed (h, v)) w
     = (Raise not_connected, entered w)
  /\ await (wait_for_notification bleak bleak_installed _DATA_MODE_LISTEN (h, d, t)) w
     = (Raise not_connected, entered w)
  /\ state (entered w) = state w
  /\ transport_calls (trace (entered w)) = transport_calls (trace w).
Proof.
  intros w Hd. unfold Disconnected in Hd.
  repeat split; try apply entered_state; try apply entered_transport_calls;
    enter; step_body; rewrite entered_state, Hd; reflexivity.
Qed.

(** C4. While connected, [read_handle h] makes one call into the transport,
    a read at native handle [h - 1], and hands back what that read returns
    or raises; [write_handle (h, v)] makes one call, a write of [v] at
    native handle [h - 1] with a response requested, and returns nothing
    when the write returns. Neither touches [self]. *)
Theorem handle_minus_one
    (w : W) (p : Peripheral) (h : Z) (v : bytes)
    (Hc : Connected w p) (Hh : (1 <= h)%Z) :
  let rd := await (read_handle bleak bleak_installed h) w in
  let wr := await (write_handle bleak bleak_installed (h, v)) w in
  (fst rd = fst (bleak_read_gatt_char bleak p (h - 1) (radio (state w)))
   /\ radio (state (snd rd))
      = snd (bleak_read_gatt_char bleak p (h - 1) (radio (state w)))
   /\ transport_calls (trace (snd rd))
      = transport_calls (trace w) ++ [Peripheral_read_gatt_char p (h - 1)]
   /\ self (state (snd rd)) = self (state w))
  /\
  (fst wr = fst (bleak_write_gatt_char bleak p (h - 1) v true (radio (state w)))
   /\ radio (state (snd wr))
      = snd (bleak_write_gatt_char bleak p (h - 1) v true (radio (state w)))
   /\ transport_calls (trace (snd wr))
      = transport_calls (trace w) ++ [Peripheral_write_gatt_char p (h - 1) v true]
   /\ self (state (snd wr)) = self (state w)
   /\ (forall t1,
         bleak_write_gatt_char bleak p (h - 1) v true (radio (state w)) = (Ret tt, t1) ->
         fst wr = Ret tt)).
Proof.
  intros rd wr. unfold Connected in Hc. subst rd wr. enter. step_body.
  with_token Hc.
  destruct (bleak_read_gatt_char bleak p (h - 1) (radio (state w))) as [r1 t1].
  destruct (bleak_write_gatt_char bleak p (h - 1) v true (radio (state w)))
    as [r2 t2].
  simpl. rewrite !transport_calls_app, !entered_transport_calls.
  repeat split. intros t0 Heq. injection Heq as -> _. reflexivity.
Qed.

(** C6, what the code does. While connected, [wait_for_notification]
    calls [withDelegate] and then, unless that raised,
    [waitForNotifications] with the timeout, whose answer it hands back.
    The coroutine of [write_handle] is never run: no write reaches the
    transport. *)
Theorem wait_for_notification_never_writes
    (w : W) (p : Peripheral) (h : Z) (d : Delegate) (t : Q)
    (Hc : Connected w p) :
  let run := await (wait_for_notification bleak bleak_installed
                      _DATA_MODE_LISTEN (h, d, t)) w in
  exists calls,
    transport_calls (trace (snd run)) = transport_calls (trace w) ++ calls
    /\ (calls = [Peripheral_withDelegate p d]
        \/ calls = [Peripheral_withDelegate p d;
                    Peripheral_waitForNotifications p t])
    /\ ~ In (Peripheral_write_gatt_char p (h - 1) _DATA_MODE_LISTEN true) calls
    /\ ~ In (Peripheral_write_gatt_char p h _DATA_MODE_LISTEN true) calls.
Proof.
  intros run. unfold Connected in Hc. subst run. enter. step_body.
  with_token Hc.
  unfold write_handle. rewrite call_wrapped.
  set (w1 := entered (entered w)).
  assert (Hs : state w1 = state w) by (subst w1; rewrite !entered_state; reflexivity).
  assert (Ht : transport_calls (trace w1) = transport_calls (trace w))
    by (subst w1; rewrite !entered_transport_calls; reflexivity).
  rewrite Hs.
  destruct (bleak_withDelegate bleak p d (radio (state w))) as [[[] | e] t1].
  - cbv beta iota. simpl state. simpl trace.
    destruct (bleak_waitForNotifications bleak p t t1) as [r2 t2].
    exists [Peripheral_withDelegate p d; Peripheral_waitForNotifications p t].
    simpl snd. simpl trace.
    rewrite !transport_calls_app, Ht, <- app_assoc.
    repeat split; auto; intros [Hin | [Hin | []]]; discriminate Hin.
  - cbv beta iota. exists [Peripheral_withDelegate p d].
    simpl snd. simpl trace. rewrite transport_calls_app, Ht.
    repeat split; auto; intros [Hin | []]; discriminate Hin.
Qed.

(** C2, as the code has it. While connected, [disconnect] makes one call
    into the transport, the release of the connection object. When the
    release returns, the call returns and [_peripheral] is [None]
    afterwards. When the release raises, the exception reaches the caller
    as it is and [_peripheral] still holds the connection object. *)
Theorem disconnect_clears_token_when_released
    (w : W) (p : Peripheral) (Hc : Connected w p) :
  let run := await (disconnect bleak bleak_installed tt) w in
  transport_calls (trace (snd run))
  = transport_calls (trace w) ++ [Peripheral_disconnect p]
  /\ radio (state (snd run)) = snd (bleak_disconnect bleak p (radio (state w)))
  /\ (forall t1,
        bleak_disconnect bleak p (radio (state w)) = (Ret tt, t1) ->
        fst run = Ret tt /\ Disconnected (snd run))
  /\ (forall e t1,
        bleak_disconnect bleak p (radio (state w)) = (Raise e, t1) ->
        fst run = Raise e /\ Connected (snd run) p).
Proof.
  intros run. unfold Connected in Hc. subst run. enter. step_body.
  with_token Hc.
  destruct (bleak_disconnect bleak p (radio (state w))) as [[[] | e] t1];
    cbv beta iota; simpl; rewrite transport_calls_app, entered_transport_calls;
    (split; [reflexivity | split; [reflexivity | split]]).
  - intros t0 _. split; reflexivity.
  - intros e0 t0 Heq. discriminate Heq.
  - intros t0 Heq. discriminate Heq.
  - intros e0 t0 Heq. injection Heq as -> _. split; [reflexivity |].
    unfold Connected. simpl. exact Hc.
Qed.

(** The operations other than [connect] leave a disconnected session
    disconnected. *)
Lemma stays_disconnected (o : @op Delegate) (w : W) :
  Disconnected w ->
  (forall mac, o <> OpConnect mac) ->
  Disconnected (run_op' o w).
Proof.
  intros Hd Hnot. unfold Disconnected in *.
  destruct o as [mac | | h | h v | h d t | t a]; unfold run_op.
  - exfalso. apply (Hnot mac). reflexivity.
  - enter. step_body. with_token Hd. simpl. rewrite entered_state. exact Hd.
  - enter. step_body. with_token Hd. simpl. rewrite entered_state. exact Hd.
  - enter. step_body. with_token Hd. simpl. rewrite entered_state. exact Hd.
  - enter. step_body. with_token Hd. simpl. rewrite entered_state. exact Hd.
  - enter. step_body.
    destruct bleak_installed; cbv beta iota; simpl; [| exact Hd].
    destruct (bleak_discover bleak t (radio (state w))) as [[ds | e] t1];
      simpl; exact Hd.
Qed.


(** C8, as the code has it. When a call of [disconnect] has returned, a
    second call right after it returns too, leaves the state as it is
    without a call into the transport, and the session is disconnected. *)
Theorem disconnect_twice
    (w : W) :
  let first := await (disconnect bleak bleak_installed tt) w in
  let second := await (disconnect bleak bleak_installed tt) (snd first) in
  fst first = Ret tt ->
  fst second = Ret tt
  /\ state (snd second) = state (snd first)
  /\ transport_calls (trace (snd second)) = transport_calls (trace (snd first))
  /\ Disconnected (snd second).
Proof.
  intros first second Hfirst.
  assert (Hd : Disconnected (snd first)).
  { subst first. revert Hfirst. enter. step_body. unfold Disconnected.
    destruct (_peripheral (self (state (entered w)))) as [p |] eqn:Hp.
    - destruct (bleak_disconnect bleak p (radio (state (entered w))))
        as [[[] | e] t1]; cbv beta iota; simpl; [reflexivity | discriminate].
    - simpl. intros _. exact Hp. }
  unfold Disconnected in Hd. subst second. enter. step_body.
  with_token Hd. simpl. rewrite entered_state, entered_transport_calls.
  repeat split. unfold Disconnected. rewrite entered_state. exact Hd.
Qed.

(** C9. With bleak importable and whatever the state of the session, when
    the discovery returns a list of devices [scan_for_devices] returns the
    (address, name) pair of each of them, in the order of the list and
    with repetitions kept; the discovery is the only call made into the
    transport, with the timeout as given, and [self] is not touched. *)
Theorem scan_returns_every_advertisement
    (w : W) (timeout : Q) (adapter : string) (devices : list BLEDevice) (t1 : T)
    (Hb : bleak_installed = true)
    (Hscan : bleak_discover bleak timeout (radio (state w)) = (Ret devices, t1)) :
  let run := await (scan_for_devices bleak bleak_installed (timeout, adapter)) w in
  fst run = Ret (map (fun device => (address device, name device)) devices)
  /\ transport_calls (trace (snd run))
     = transport_calls (trace w) ++ [BleakScanner_discover timeout]
  /\ self (state (snd run)) = self (state w)
  /\ radio (state (snd run)) = t1.
Proof.
  intros run. subst run. enter. step_body. rewrite Hb. cbv beta iota.
  simpl state. simpl trace. rewrite Hscan. simpl.
  rewrite (fold_append_map (fun device => (address device, name device))).
  rewrite !transport_calls_app. simpl. rewrite app_nil_r.
  repeat split.
Qed.

End SessionProperties.

(* ================================================================== *)
(** * Part III: the properties at work                                  *)
(* ================================================================== *)


(** The retry decorator on [faulty]: one try, the [ValueError] as it is. *)
Lemma non_transient_propagates_witness :
  faulty 0 = (Raise (mk_exn (Derived "ValueError" Exception) ["bad handle"] None), 1)
  /\ except_bleak (mk_exn (Derived "ValueError" Exception) ["bad handle"] None) = false
  /\ _func_wrapper (Peripheral:=nat) (Delegate:=nat) (lift faulty) (mk_world 0 [])
     = (Raise (mk_exn (Derived "ValueError" Exception) ["bad handle"] None),
        mk_world 1 [Call]).
Proof.
  split; [reflexivity | split; [reflexivity |]].
  destruct (non_transient_propagates (Peripheral:=nat) (Delegate:=nat)
              faulty 0 1 _ [] eq_refl eq_refl) as [Hrun _].
  exact Hrun.
Defined.

(** The retry decorator on [flaky] with three failures ahead: three
    sleeps. *)
Lemma delay_after_every_caught_failure_witness :
  leading_failures flaky RETRY_LIMIT 3 = RETRY_LIMIT
  /\ delays (trace (snd (_func_wrapper (Peripheral:=nat) (Delegate:=nat)
                           (lift flaky) (mk_world 3 []))))
     = [RETRY_DELAY; RETRY_DELAY; RETRY_DELAY]
  /\ trace (snd (_func_wrapper (Peripheral:=nat) (Delegate:=nat)
                   (lift flaky) (mk_world 3 [])))
     = [Call; Sleep RETRY_DELAY; LogDebug 1 3;
        Call; Sleep RETRY_DELAY; LogDebug 2 3;
        Call; Sleep RETRY_DELAY; LogDebug 3 3].
Proof.
  split; [reflexivity |].
  destruct (delay_after_every_caught_failure (Peripheral:=nat) (Delegate:=nat)
              flaky 3 []) as [_ Hfull].
  destruct (Hfull eq_refl) as [_ [Htrace [_ Hdelays]]].
  split; [exact Hdelays | exact Htrace].
Defined.

(** The example of the specification: connect, read handle 10,
    disconnect; a read after that is refused. *)
Lemma not_connected_precondition_witness :
  let w := run_ops scripted_bleak true listen
             [OpConnect "AA:BB:CC:DD:EE:FF"; OpReadHandle 10; OpDisconnect]
             (session_at None 0) in
  Disconnected w
  /\ transport_calls (trace w)
     = [BleakClient_connect "AA:BB:CC:DD:EE:FF";
        Peripheral_read_gatt_char 1 9; Peripheral_disconnect 1]
  /\ await (read_handle scripted_bleak true 10) w
     = (Raise not_connected, emit Call w)
  /\ await (write_handle scripted_bleak true (10%Z, listen)) w
     = (Raise not_connected, emit Call w)
  /\ await (wait_for_notification scripted_bleak true listen (10%Z, 7, 5%Q)) w
     = (Raise not_connected, emit Call w).
Proof.
  intros w. split; [vm_compute; reflexivity | split; [vm_compute; reflexivity |]].
  destruct (not_connected_precondition scripted_bleak true listen
              [OpConnect "AA:BB:CC:DD:EE:FF"; OpReadHandle 10; OpDisconnect]
              (session_at None 0) 10 listen 7 5%Q
              ltac:(vm_compute; reflexivity))
    as [Hread [Hwrite [Hwait _]]].
  split; [exact Hread | split; [exact Hwrite | exact Hwait]].
Defined.

(** Handle 10 on a connected session: native handle 9. *)
Lemma handle_minus_one_witness :
  let w := session_at (Some 1) 0 in
  Connected w 1 /\ (1 <= 10)%Z
  /\ fst (await (read_handle scripted_bleak true 10) w)
     = Ret [Byte.x64; Byte.x27]
  /\ transport_calls (trace (snd (await (read_handle scripted_bleak true 10) w)))
     = [Peripheral_read_gatt_char 1 9]
  /\ fst (await (write_handle scripted_bleak true (10%Z, listen)) w) = Ret tt
  /\ transport_calls
       (trace (snd (await (write_handle scripted_bleak true (10%Z, listen)) w)))
     = [Peripheral_write_gatt_char 1 9 listen true].
Proof.
  intros w. split; [reflexivity | split; [lia |]].
  destruct (handle_minus_one scripted_bleak true w 1 10 listen
              eq_refl ltac:(lia))
    as [[Hr [_ [Hrc _]]] [Hw [_ [Hwc _]]]].
  split; [exact Hr | split; [exact Hrc | split; [exact Hw | exact Hwc]]].
Defined.

(** [wait_for_notification] on a connected session: the delegate is set
    and the notification awaited; nothing is written. *)
Lemma wait_for_notification_never_writes_witness :
  let w := session_at (Some 1) 0 in
  let run := await (wait_for_notification scripted_bleak true listen
                      (10%Z, 7, 5%Q)) w in
  Connected w 1
  /\ fst run = Ret true
  /\ transport_calls (trace (snd run))
     = [Peripheral_withDelegate 1 7; Peripheral_waitForNotifications 1 5%Q]
  /\ exists calls,
       transport_calls (trace (snd run)) = transport_calls (trace w) ++ calls
       /\ ~ In (Peripheral_write_gatt_char 1 (10 - 1) listen true) calls
       /\ ~ In (Peripheral_write_gatt_char 1 10 listen true) calls.
Proof.
  intros w run.
  split; [reflexivity | split; [vm_compute; reflexivity |
                                split; [vm_compute; reflexivity |]]].
  destruct (wait_for_notification_never_writes scripted_bleak true listen
              w 1 10 7 5%Q eq_refl)
    as [calls [Hcalls [_ [Hnot9 Hnot10]]]].
  exists calls. split; [exact Hcalls | split; [exact Hnot9 | exact Hnot10]].
Defined.

(** C2, where the claim fails: the release raises [dbus_error], which
    reaches the caller, and the connection object is still in
    [_peripheral]. *)
Lemma disconnect_release_raises_keeps_token :
  let w := session_at (Some 1) 1 in
  let run := await (disconnect scripted_bleak true tt) w in
  Connected w 1
  /\ bleak_disconnect scripted_bleak 1 (radio (state w)) = (Raise dbus_error, 0)
  /\ fst run = Raise dbus_error
  /\ ~ Disconnected (snd run).
Proof.
  vm_compute.
  split; [reflexivity | split; [reflexivity | split; [reflexivity | discriminate]]].
Qed.

(** [disconnect] when the release returns and when it raises. *)
Lemma disconnect_clears_token_when_released_witness :
  (let w := session_at (Some 1) 0 in
   let run := await (disconnect scripted_bleak true tt) w in
   Connected w 1
   /\ bleak_disconnect scripted_bleak 1 (radio (state w)) = (Ret tt, 0)
   /\ fst run = Ret tt /\ Disconnected (snd run))
  /\
  (let w := session_at (Some 1) 1 in
   let run := await (disconnect scripted_bleak true tt) w in
   Connected w 1
   /\ bleak_disconnect scripted_bleak 1 (radio (state w)) = (Raise dbus_error, 0)
   /\ fst run = Raise dbus_error /\ Connected (snd run) 1).
Proof.
  split; intros w run; (split; [reflexivity | split; [reflexivity |]]).
  - destruct (disconnect_clears_token_when_released scripted_bleak true w 1 eq_refl)
      as [_ [_ [Hok _]]].
    exact (Hok 0 eq_refl).
  - destruct (disconnect_clears_token_when_released scripted_bleak true w 1 eq_refl)
      as [_ [_ [_ Hraise]]].
    exact (Hraise dbus_error 0 eq_refl).
Defined.


(** C8, where the claim fails: the first release raises, so the second
    call finds the connection object still there, calls the transport
    again, raises again and leaves the session connected. *)
Lemma disconnect_twice_release_raises :
  let w := session_at (Some 1) 2 in
  let first := await (disconnect scripted_bleak true tt) w in
  let second := await (disconnect scripted_bleak true tt) (snd first) in
  fst second = Raise dbus_error
  /\ transport_calls (trace (snd second))
     = transport_calls (trace (snd first)) ++ [Peripheral_disconnect 1]
  /\ ~ Disconnected (snd second).
Proof.
  vm_compute. split; [reflexivity | split; [reflexivity | discriminate]].
Qed.

(** [disconnect] twice on a connected session whose release returns. *)
Lemma disconnect_twice_witness :
  let w := session_at (Some 1) 0 in
  let first := await (disconnect scripted_bleak true tt) w in
  let second := await (disconnect scripted_bleak true tt) (snd first) in
  fst first = Ret tt
  /\ fst second = Ret tt
  /\ transport_calls (trace (snd second)) = [Peripheral_disconnect 1]
  /\ Disconnected (snd second).
Proof.
  intros w first second. split; [reflexivity |].
  destruct (disconnect_twice scripted_bleak true w eq_refl)
    as [Hret [_ [Hcalls Hd]]].
  split; [exact Hret | split; [| exact Hd]].
  fold first second in Hcalls. rewrite Hcalls. vm_compute. reflexivity.
Defined.

(** A scan on a session that never connected: three advertisements, two
    of them of the same device, all three returned in order. *)
Lemma scan_returns_every_advertisement_witness :
  let w := session_at None 0 in
  let run := await (scan_for_devices scripted_bleak true (5%Q, "hci0")) w in
  bleak_discover scripted_bleak 5%Q (radio (state w)) = (Ret advertisements, 0)
  /\ fst run = Ret [("C4:7C:8D:6A:3E:7A", Some "Flower care");
                    ("AA:BB:CC:DD:EE:FF", None);
                    ("C4:7C:8D:6A:3E:7A", Some "Flower care")]
  /\ transport_calls (trace (snd run)) = [BleakScanner_discover 5%Q].
Proof.
  intros w run. split; [reflexivity |].
  destruct (scan_returns_every_advertisement scripted_bleak true w 5%Q "hci0"
              advertisements 0 eq_refl eq_refl) as [Hret [Hcalls _]].
  split; [exact Hret | exact Hcalls].
Defined.

(* ================================================================== *)
(** * Part IV: further properties of the code                           *)
(* ================================================================== *)

(** ** The retry decorator in full *)

Section RetryOutcome.

Context {Peripheral Delegate S A : Type}.

Local Abbreviation W := (world Peripheral Delegate S).
Local Abbreviation events := (list (event Peripheral Delegate)).

Lemma attempts_retry_events (error_count k : nat) :
  attempts (Peripheral:=Peripheral) (Delegate:=Delegate)
    (retry_events error_count k) = k.
Proof.
  revert error_count. induction k as [| k IH]; intros ec; [reflexivity |].
  unfold attempts in *. simpl. rewrite IH. reflexivity.
Qed.

Lemma logs_app (a b : events) : logs (a ++ b) = logs a ++ logs b.
Proof.
  induction a as [| ev a IH]; [reflexivity |].
  destruct ev; simpl; rewrite IH; reflexivity.
Qed.

Lemma logs_retry_events (error_count k : nat) :
  logs (Peripheral:=Peripheral) (Delegate:=Delegate) (retry_events error_count k)
  = map (fun n => (n, RETRY_LIMIT)) (seq (error_count + 1) k).
Proof.
  revert error_count. induction k as [| k IH]; intros ec; [reflexivity |].
  simpl retry_events. simpl logs. rewrite IH. simpl.
  replace (ec + 1 + 1) with (Datatypes.S (ec + 1)) by lia. reflexivity.
Qed.

Lemma leading_failures_le (f : S -> outcome A * S) (n : nat) :
  forall s, leading_failures f n s <= n.
Proof.
  induction n as [| n IH]; intros s; simpl; [lia |].
  destruct (f s) as [[v | e] s1]; [lia |].
  destruct (except_bleak e); [| lia].
  specialize (IH s1). lia.
Qed.

(** The caught failures at the head of a run, and what stops them. *)
Lemma leading_failures_run (f : S -> outcome A * S) (n : nat) :
  forall s,
    exists errs sk,
      transient_failures f (leading_failures f n s) s = Some (errs, sk)
      /\ (leading_failures f n s < n ->
          match f sk with
          | (Raise e, _) => except_bleak e = false
          | (Ret _, _) => True
          end).
Proof.
  induction n as [| n IH]; intros s; simpl.
  - exists [], s. split; [reflexivity | lia].
  - destruct (f s) as [[v | e] s1] eqn:Hfs.
    + exists [], s. split; [reflexivity |]. intros _. rewrite Hfs. exact I.
    + destruct (except_bleak e) eqn:He.
      * destruct (IH s1) as [errs [sk [Hrun Hstop]]].
        exists (e :: errs), sk. simpl. rewrite Hfs, He, Hrun.
        split; [reflexivity |]. intros Hlt. apply Hstop. lia.
      * exists [], s. split; [reflexivity |]. intros _. rewrite Hfs. exact He.
Qed.

(** What a decorated call comes to, by the number of caught failures at
    its head. *)
Lemma wrapper_outcome (f : S -> outcome A * S) (s sk : S) (errs : list exn)
    (tr : events) :
  let caught := leading_failures f RETRY_LIMIT s in
  transient_failures f caught s = Some (errs, sk) ->
  _func_wrapper (lift f) (mk_world s tr) =
  if caught <? RETRY_LIMIT then
    (fst (f sk), mk_world (snd (f sk)) (tr ++ retry_events 0 caught ++ [Call]))
  else
    (Raise (mk_exn BluetoothBackendException [] (last (map Some errs) None)),
     mk_world sk (tr ++ retry_events 0 caught)).
Proof.
  intros caught Hrun.
  pose proof (leading_failures_le f RETRY_LIMIT s) as Hle. fold caught in Hle.
  destruct (leading_failures_run f RETRY_LIMIT s) as [errs' [sk' [Hrun' Hstop]]].
  fold caught in Hrun', Hstop. rewrite Hrun in Hrun'.
  injection Hrun' as <- <-.
  unfold _func_wrapper.
  rewrite (retry_loop_failures f caught 0 None s sk errs tr Hrun) by lia.
  simpl (0 + caught).
  destruct (caught <? RETRY_LIMIT) eqn:Hlt.
  - apply Nat.ltb_lt in Hlt. specialize (Hstop Hlt).
    rewrite retry_loop_step.
    replace (caught <? RETRY_LIMIT) with true by (symmetry; apply Nat.ltb_lt; lia).
    unfold lift, emit. simpl state. simpl trace.
    destruct (f sk) as [[v | e] s']; simpl fst; simpl snd.
    + rewrite <- app_assoc. reflexivity.
    + rewrite Hstop, <- app_assoc. reflexivity.
  - apply Nat.ltb_ge in Hlt.
    replace caught with RETRY_LIMIT by lia.
    rewrite retry_loop_exhausted. reflexivity.
Qed.

(** X1. Every decorated call enters the wrapped function at least once
    and at most [RETRY_LIMIT] times: once more than the number of caught
    failures at its head, up to the limit. *)
Theorem attempts_between_one_and_limit
    (f : S -> outcome A * S) (s : S) (tr : events) :
  let run := _func_wrapper (lift f) (mk_world s tr) in
  let caught := leading_failures f RETRY_LIMIT s in
  attempts (trace (snd run)) = attempts tr + Nat.min (caught + 1) RETRY_LIMIT
  /\ attempts tr + 1 <= attempts (trace (snd run))
  /\ attempts (trace (snd run)) <= attempts tr + RETRY_LIMIT.
Proof.
  intros run caught.
  assert (Hn : attempts (trace (snd run))
               = attempts tr + Nat.min (caught + 1) RETRY_LIMIT).
  { destruct (leading_failures_run f RETRY_LIMIT s) as [errs [sk [Hrun _]]].
    pose proof (leading_failures_le f RETRY_LIMIT s) as Hle.
    fold caught in Hrun, Hle.
    subst run. rewrite (wrapper_outcome f s sk errs tr Hrun). fold caught.
    destruct (caught <? RETRY_LIMIT) eqn:Hlt; simpl snd; simpl trace.
    - apply Nat.ltb_lt in Hlt.
      rewrite !attempts_app, attempts_retry_events.
      change (attempts (Peripheral:=Peripheral) (Delegate:=Delegate) [Call])
        with 1.
      unfold RETRY_LIMIT in *. lia.
    - apply Nat.ltb_ge in Hlt.
      rewrite attempts_app, attempts_retry_events.
      unfold RETRY_LIMIT in *. lia. }
  rewrite Hn. unfold RETRY_LIMIT. lia.
Qed.

(** X2. When the wrapped function raises caught exceptions [j < 3] times
    and then an exception of another class, that exception reaches the
    caller as it is, after [j + 1] tries and [j] sleeps; the caught
    exceptions before it are dropped. *)
Theorem transient_then_other_error_propagates
    (f : S -> outcome A * S) (j : nat) (s sj s' : S) (errs : list exn)
    (e : exn) (tr : events) :
  transient_failures f j s = Some (errs, sj) ->
  j < RETRY_LIMIT ->
  f sj = (Raise e, s') ->
  except_bleak e = false ->
  let run := _func_wrapper (lift f) (mk_world s tr) in
  run = (Raise e, mk_world s' (tr ++ retry_events 0 j ++ [Call]))
  /\ attempts (trace (snd run)) = attempts tr + j + 1
  /\ delays (trace (snd run)) = delays tr ++ repeat RETRY_DELAY j.
Proof.
  intros Hfail Hj Hf He run.
  assert (Hrun : run = (Raise e, mk_world s' (tr ++ retry_events 0 j ++ [Call]))).
  { subst run. unfold _func_wrapper.
    rewrite (retry_loop_failures f j 0 None s sj errs tr Hfail) by lia.
    simpl (0 + j). rewrite retry_loop_step.
    replace (j <? RETRY_LIMIT) with true by (symmetry; apply Nat.ltb_lt; lia).
    unfold lift, emit. simpl state. rewrite Hf, He. simpl trace.
    rewrite <- app_assoc. reflexivity. }
  split; [exact Hrun | rewrite Hrun; simpl snd; simpl trace; split].
  - rewrite !attempts_app, attempts_retry_events.
    change (attempts (Peripheral:=Peripheral) (Delegate:=Delegate) [Call])
      with 1.
    lia.
  - unfold RETRY_LIMIT in Hj.
    destruct j as [| [| [| j]]]; try lia;
      rewrite !delays_app; simpl; rewrite ?app_nil_r; reflexivity.
Qed.

(** X3. The retry count starts afresh with every decorated call: what a
    call returns or raises, the state it leaves and the events it adds do
    not depend on what was traced before it. *)
Theorem retry_budget_is_per_call
    (f : S -> outcome A * S) (s : S) (tr : events) :
  let fresh := _func_wrapper (lift f) (mk_world s []) in
  _func_wrapper (lift f) (mk_world s tr)
  = (fst fresh, mk_world (state (snd fresh)) (tr ++ trace (snd fresh))).
Proof.
  intros fresh. subst fresh.
  destruct (leading_failures_run f RETRY_LIMIT s) as [errs [sk [Hrun _]]].
  rewrite (wrapper_outcome f s sk errs tr Hrun).
  rewrite (wrapper_outcome f s sk errs [] Hrun).
  destruct (leading_failures f RETRY_LIMIT s <? RETRY_LIMIT); reflexivity.
Qed.

(** X4. The debug log of a decorated call has one line per caught
    failure, numbered 1, 2, ... in order, each with the limit 3. *)
Theorem failed_tries_logged_in_order
    (f : S -> outcome A * S) (s : S) (tr : events) :
  let run := _func_wrapper (lift f) (mk_world s tr) in
  let caught := leading_failures f RETRY_LIMIT s in
  logs (trace (snd run))
  = logs tr ++ map (fun n => (n, 3)) (seq 1 caught).
Proof.
  intros run caught.
  destruct (leading_failures_run f RETRY_LIMIT s) as [errs [sk [Hrun _]]].
  fold caught in Hrun.
  subst run. rewrite (wrapper_outcome f s sk errs tr Hrun). fold caught.
  destruct (caught <? RETRY_LIMIT); simpl snd; simpl trace;
    rewrite ?logs_app, logs_retry_events; simpl; rewrite ?app_nil_r; reflexivity.
Qed.

End RetryOutcome.

(** ** What the session operations keep *)

Section Keeping.

Context {Peripheral Delegate T : Type}.
Variable bleak : @Bleak Peripheral Delegate T.
Variable bleak_installed : bool.
Variable _DATA_MODE_LISTEN : bytes.

Local Abbreviation W := (world Peripheral Delegate (@session Peripheral T)).
Local Abbreviation Mo := (M Peripheral Delegate (@session Peripheral T)).

(** A relation between the world before and the world after that holds
    across the decorator's entry and across any call into the transport. *)
Variable R : W -> W -> Prop.
Hypothesis R_refl : forall w, R w w.
Hypothesis R_trans : forall w1 w2 w3, R w1 w2 -> R w2 w3 -> R w1 w3.
Hypothesis R_call : forall w, R w (emit Call w).
Hypothesis R_transport :
  forall (A : Type) (c : transport_call Peripheral Delegate)
         (f : T -> outcome A * T) (w : W),
    R w (snd (transport c f w)).

Lemma keeps_bind {A B} (m : Mo A) (k : A -> Mo B) :
  keeps R m -> (forall a, keeps R (k a)) -> keeps R (bind m k).
Proof.
  intros Hm Hk w. unfold bind. specialize (Hm w).
  destruct (m w) as [[a | e] w1]; simpl in Hm.
  - apply (R_trans _ w1); [exact Hm | apply Hk].
  - exact Hm.
Qed.

Lemma keeps_awaited {Args A} (body : Args -> Mo A) (args : Args) :
  keeps R (body args) ->
  keeps R (await (wrap_exception bleak_installed (async_def body) args)).
Proof.
  intros Hbody w. rewrite await_wrapped.
  destruct bleak_installed; [| apply Hbody].
  apply (R_trans _ (emit Call w)); [apply R_call | apply Hbody].
Qed.

Lemma keeps_called {Args A} (body : Args -> Mo A) (args : Args) :
  keeps R (wrap_exception bleak_installed (async_def body) args).
Proof.
  intros w. rewrite call_wrapped. simpl.
  destruct bleak_installed; [apply R_call | apply R_refl].
Qed.

Lemma keeps_read_handle_body (h : Z) : keeps R (read_handle_body bleak h).
Proof.
  intros w. unfold read_handle_body, bind, get_peripheral.
  destruct (_peripheral (self (state w))) as [p |].
  - apply R_transport.
  - apply R_refl.
Qed.

Lemma keeps_write_handle_body (args : Z * bytes) :
  keeps R (write_handle_body bleak args).
Proof.
  intros w. destruct args as [h v].
  unfold write_handle_body, bind, get_peripheral.
  destruct (_peripheral (self (state w))) as [p |].
  - apply R_transport.
  - apply R_refl.
Qed.

Lemma keeps_wait_for_notification_body (args : Z * Delegate * Q) :
  keeps R (wait_for_notification_body bleak bleak_installed _DATA_MODE_LISTEN args).
Proof.
  destruct args as [[h d] t]. unfold wait_for_notification_body.
  apply keeps_bind; [intros w; apply R_refl |].
  intros [p |]; [| intros w; apply R_refl].
  apply keeps_bind; [apply keeps_called |]. intros _.
  apply keeps_bind; [intros w; apply R_transport |]. intros _.
  intros w. apply R_transport.
Qed.

Lemma keeps_scan_for_devices_body (args : Q * string) :
  keeps R (scan_for_devices_body bleak bleak_installed args).
Proof.
  destruct args as [t a]. unfold scan_for_devices_body.
  apply keeps_bind.
  - intros w. unfold import_bleak. destruct bleak_installed; apply R_refl.
  - intros _. apply keeps_bind; [intros w; apply R_transport |].
    intros devices w. apply R_refl.
Qed.

(** The four operations that never assign to [self]. *)
Lemma keeps_without_assignment (o : @op Delegate) :
  (forall mac, o <> OpConnect mac) ->
  o <> OpDisconnect ->
  forall w, R w (run_op bleak bleak_installed _DATA_MODE_LISTEN o w).
Proof.
  intros Hc Hd w.
  destruct o as [mac | | h | h v | h d t | t a]; unfold run_op.
  - exfalso. apply (Hc mac). reflexivity.
  - exfalso. apply Hd. reflexivity.
  - apply keeps_awaited, keeps_read_handle_body.
  - apply keeps_awaited, keeps_write_handle_body.
  - apply keeps_awaited, keeps_wait_for_notification_body.
  - apply keeps_awaited, keeps_scan_for_devices_body.
Qed.

(** With the assignments to [self._peripheral] too. *)
Hypothesis R_set :
  forall (p : option Peripheral) (w : W), R w (snd (set_peripheral p w)).

Lemma keeps_run_op (o : @op Delegate) (w : W) :
  R w (run_op bleak bleak_installed _DATA_MODE_LISTEN o w).
Proof.
  destruct o as [mac | | h | h v | h d t | t a];
    try (apply keeps_without_assignment; [intros m |]; discriminate).
  - unfold run_op. apply keeps_awaited. unfold connect_body.
    apply keeps_bind.
    + intros w0. unfold import_bleak. destruct bleak_installed; apply R_refl.
    + intros _. apply keeps_bind; [intros w0; apply R_transport |].
      intros p w0. apply R_set.
  - unfold run_op. apply keeps_awaited. unfold disconnect_body.
    apply keeps_bind; [intros w0; apply R_refl |].
    intros [p |]; [| intros w0; apply R_refl].
    apply keeps_bind; [intros w0; apply R_transport |].
    intros _ w0. apply R_set.
Qed.

Lemma keeps_run_ops (os : list (@op Delegate)) :
  forall w, R w (run_ops bleak bleak_installed _DATA_MODE_LISTEN os w).
Proof.
  induction os as [| o os IH]; intros w; simpl.
  - apply R_refl.
  - apply (R_trans _ (run_op bleak bleak_installed _DATA_MODE_LISTEN o w));
      [apply keeps_run_op | apply IH].
Qed.

End Keeping.

(** ** The session, further *)

Section SessionFurther.

Context {Peripheral Delegate T : Type}.
Variable bleak : @Bleak Peripheral Delegate T.
Variable bleak_installed : bool.
Variable _DATA_MODE_LISTEN : bytes.

Local Abbreviation W := (world Peripheral Delegate (@session Peripheral T)).
Local Abbreviation entered w := (if bleak_installed then emit Call w else w).
Local Abbreviation run_op' := (run_op bleak bleak_installed _DATA_MODE_LISTEN).
Local Abbreviation run_ops' := (run_ops bleak bleak_installed _DATA_MODE_LISTEN).

Ltac enter :=
  unfold connect, disconnect, read_handle, write_handle,
    wait_for_notification, scan_for_devices;
  rewrite ?await_wrapped.

Ltac step_body :=
  unfold connect_body, disconnect_body, read_handle_body, write_handle_body,
    wait_for_notification_body, scan_for_devices_body, import_bleak,
    bind, get_peripheral, set_peripheral, transport, raise, ret;
  cbv beta zeta.

Ltac with_token H :=
  rewrite ?entered_state, H; cbv beta iota; rewrite ?entered_state.

(** X5. Whatever the transport answers, no sequence of session operations
    ever sleeps or writes a retry line to the debug log: the bodies of
    the decorated coroutine functions run outside the decorator's loop. *)
Theorem session_never_sleeps_nor_logs (os : list (@op Delegate)) (w : W) :
  delays (trace (run_ops' os w)) = delays (trace w)
  /\ logs (trace (run_ops' os w)) = logs (trace w).
Proof.
  apply (keeps_run_ops bleak bleak_installed _DATA_MODE_LISTEN
           (fun w1 w2 : W =>
              delays (trace w2) = delays (trace w1)
              /\ logs (trace w2) = logs (trace w1))).
  - intros w0. split; reflexivity.
  - intros w1 w2 w3 [Hd1 Hl1] [Hd2 Hl2].
    split; [rewrite Hd2; exact Hd1 | rewrite Hl2; exact Hl1].
  - intros w0. unfold emit. simpl. rewrite delays_app, logs_app. simpl.
    rewrite !app_nil_r. split; reflexivity.
  - intros A c f w0. unfold transport. destruct (f (radio (state w0))) as [r t1].
    simpl. rewrite delays_app, logs_app. simpl.
    rewrite !app_nil_r. split; reflexivity.
  - intros p w0. split; reflexivity.
Qed.

(** X6. [read_handle], [write_handle], [wait_for_notification] and
    [scan_for_devices] leave the backend object as it is, whatever the
    session state and whatever the transport answers: only [connect] and
    [disconnect] assign to it. *)
Theorem only_connect_and_disconnect_assign_self (o : @op Delegate) (w : W) :
  (forall mac, o <> OpConnect mac) ->
  o <> OpDisconnect ->
  self (state (run_op' o w)) = self (state w).
Proof.
  intros Hc Hd.
  apply (keeps_without_assignment bleak bleak_installed _DATA_MODE_LISTEN
           (fun w1 w2 : W => self (state w2) = self (state w1))); try assumption.
  - reflexivity.
  - intros w1 w2 w3 H1 H2. rewrite H2. exact H1.
  - reflexivity.
  - intros A c f w0. unfold transport. destruct (f (radio (state w0))). reflexivity.
Qed.

(** X7. No sequence of session operations changes the [adapter] or the
    [address_type] the backend was constructed with. *)
Theorem adapter_and_address_type_are_fixed (os : list (@op Delegate)) (w : W) :
  adapter (self (state (run_ops' os w))) = adapter (self (state w))
  /\ address_type (self (state (run_ops' os w))) = address_type (self (state w)).
Proof.
  apply (keeps_run_ops bleak bleak_installed _DATA_MODE_LISTEN
           (fun w1 w2 : W =>
              adapter (self (state w2)) = adapter (self (state w1))
              /\ address_type (self (state w2)) = address_type (self (state w1)))).
  - intros w0. split; reflexivity.
  - intros w1 w2 w3 [Ha1 Ht1] [Ha2 Ht2].
    split; [rewrite Ha2; exact Ha1 | rewrite Ht2; exact Ht1].
  - intros w0. split; reflexivity.
  - intros A c f w0. unfold transport. destruct (f (radio (state w0))).
    split; reflexivity.
  - intros p w0. split; reflexivity.
Qed.



(** X10. What [wait_for_notification] returns or raises and the world it
    leaves do not depend on the handle it is given, nor on the listen
    payload. *)
Theorem wait_for_notification_ignores_handle
    (w : W) (h1 h2 : Z) (payload : bytes) (d : Delegate) (t : Q) :
  await (wait_for_notification bleak bleak_installed _DATA_MODE_LISTEN (h1, d, t)) w
  = await (wait_for_notification bleak bleak_installed payload (h2, d, t)) w.
Proof.
  enter. step_body.
  destruct (_peripheral (self (state (entered w)))) as [p |]; [| reflexivity].
  unfold write_handle. rewrite !call_wrapped. reflexivity.
Qed.

(** X11. [scan_for_devices] is a static method: what it returns or raises
    and the transport state it leaves depend on the timeout and on the
    transport alone, not on the adapter it is given and not on the
    backend object (connected or not). *)
Theorem scan_for_devices_depends_on_transport_only
    (w1 w2 : W) (timeout : Q) (adapter1 adapter2 : string)
    (Hradio : radio (state w1) = radio (state w2)) :
  let run1 := await (scan_for_devices bleak bleak_installed (timeout, adapter1)) w1 in
  let run2 := await (scan_for_devices bleak bleak_installed (timeout, adapter2)) w2 in
  fst run1 = fst run2
  /\ radio (state (snd run1)) = radio (state (snd run2))
  /\ self (state (snd run1)) = self (state w1)
  /\ self (state (snd run2)) = self (state w2).
Proof.
  intros run1 run2. subst run1 run2. enter. step_body.
  destruct bleak_installed; cbv beta iota; simpl state; simpl trace.
  - rewrite Hradio.
    destruct (bleak_discover bleak timeout (radio (state w2))) as [[ds | e] t1];
      simpl; repeat split.
  - simpl. repeat split. exact Hradio.
Qed.

(** X12. When the discovery raises, [scan_for_devices] raises that same
    exception, whatever its class, after the one call; the backend object
    is not touched. *)
Theorem scan_failure_propagates
    (w : W) (timeout : Q) (adapter : string) (e : exn) (t1 : T)
    (Hb : bleak_installed = true)
    (Hscan : bleak_discover bleak timeout (radio (state w)) = (Raise e, t1)) :
  let run := await (scan_for_devices bleak bleak_installed (timeout, adapter)) w in
  fst run = Raise e
  /\ transport_calls (trace (snd run))
     = transport_calls (trace w) ++ [BleakScanner_discover timeout]
  /\ delays (trace (snd run)) = delays (trace w)
  /\ self (state (snd run)) = self (state w).
Proof.
  intros run. subst run. enter. step_body. rewrite Hb. cbv beta iota.
  simpl state. simpl trace. rewrite Hscan. simpl.
  rewrite !transport_calls_app, !delays_app. simpl. rewrite !app_nil_r.
  repeat split.
Qed.

(** X14. While connected, [wait_for_notification] hands back what
    [waitForNotifications] returns or raises when [withDelegate] has
    returned, and raises what [withDelegate] raised otherwise; the
    connection object stays in place either way. *)
Theorem wait_for_notification_result
    (w : W) (p : Peripheral) (h : Z) (d : Delegate) (t : Q)
    (Hc : Connected w p) :
  let run := await (wait_for_notification bleak bleak_installed
                      _DATA_MODE_LISTEN (h, d, t)) w in
  (forall t1,
     bleak_withDelegate bleak p d (radio (state w)) = (Ret tt, t1) ->
     fst run = fst (bleak_waitForNotifications bleak p t t1)
     /\ radio (state (snd run)) = snd (bleak_waitForNotifications bleak p t t1))
  /\ (forall e t1,
        bleak_withDelegate bleak p d (radio (state w)) = (Raise e, t1) ->
        fst run = Raise e /\ radio (state (snd run)) = t1)
  /\ Connected (snd run) p.
Proof.
  intros run. unfold Connected in *. subst run. enter. step_body.
  with_token Hc. unfold write_handle. rewrite call_wrapped.
  cbv beta iota. rewrite !entered_state.
  split; [| split].
  - intros t1 Heq. rewrite Heq. simpl.
    destruct (bleak_waitForNotifications bleak p t t1) as [r2 t2].
    split; reflexivity.
  - intros e t1 Heq. rewrite Heq. simpl. split; reflexivity.
  - destruct (bleak_withDelegate bleak p d (radio (state w))) as [[[] | e] t1];
      simpl; [| exact Hc].
    destruct (bleak_waitForNotifications bleak p t t1) as [r2 t2]. exact Hc.
Qed.

(** X17. A backend as [__init__] leaves it is disconnected, whatever the
    adapter and address type; on a disconnected session [disconnect]
    returns at once, with no call into the transport and the state as it
    was. *)
Theorem disconnect_when_disconnected_is_noop
    (w : W) (adapter0 address_type0 : string) (r : T)
    (tr : list (event Peripheral Delegate)) :
  Disconnected (mk_world (mk_session (__init__ adapter0 address_type0) r) tr)
  /\ (Disconnected w ->
      await (disconnect bleak bleak_installed tt) w = (Ret tt, entered w)
      /\ state (entered w) = state w
      /\ transport_calls (trace (entered w)) = transport_calls (trace w)).
Proof.
  split; [reflexivity |]. intros Hd. unfold Disconnected in Hd.
  split; [| split; [apply entered_state | apply entered_transport_calls]].
  enter. step_body. with_token Hd. reflexivity.
Qed.

End SessionFurther.

(** ** Calls into the transport, counted; the session without bleak *)

Section SessionBounds.

Context {Peripheral Delegate T : Type}.
Variable bleak : @Bleak Peripheral Delegate T.
Variable _DATA_MODE_LISTEN : bytes.

Local Abbreviation W := (world Peripheral Delegate (@session Peripheral T)).

Ltac enter :=
  unfold connect, disconnect, read_handle, write_handle,
    wait_for_notification, scan_for_devices;
  rewrite ?await_wrapped.

Ltac step_body :=
  unfold connect_body, disconnect_body, read_handle_body, write_handle_body,
    wait_for_notification_body, scan_for_devices_body, import_bleak,
    bind, get_peripheral, set_peripheral, transport, raise, ret;
  cbv beta zeta.

(** The most calls into the transport one operation makes. *)
Lemma run_op_transport_calls (b : bool) (o : @op Delegate) (w : W) :
  List.length (transport_calls (trace (run_op bleak b _DATA_MODE_LISTEN o w)))
  <= List.length (transport_calls (trace w))
     + match o with OpWaitForNotification _ _ _ => 2 | _ => 1 end.
Proof.
  assert (Hin : forall w0 : W,
             transport_calls (trace (if b then emit Call w0 else w0))
             = transport_calls (trace w0))
    by (intros w0; apply entered_transport_calls).
  assert (Hst : forall w0 : W, state (if b then emit Call w0 else w0) = state w0)
    by (intros w0; apply entered_state).
  destruct o as [mac | | h | h v | h d t | t a]; unfold run_op; enter; step_body.
  - destruct b; cbv beta iota; simpl state; simpl trace.
    + destruct (bleak_connect bleak mac (radio (state w))) as [[p | e] t1];
        simpl; rewrite !transport_calls_app, !length_app; simpl; lia.
    + simpl. lia.
  - rewrite !Hst.
    destruct (_peripheral (self (state w))) as [p |]; cbv beta iota.
    + rewrite !Hst.
      destruct (bleak_disconnect bleak p (radio (state w))) as [[[] | e] t1];
        simpl; rewrite transport_calls_app, length_app, Hin; simpl; lia.
    + simpl. rewrite Hin. lia.
  - rewrite !Hst.
    destruct (_peripheral (self (state w))) as [p |]; cbv beta iota.
    + rewrite !Hst.
      destruct (bleak_read_gatt_char bleak p (h - 1) (radio (state w))) as [r t1];
        simpl; rewrite transport_calls_app, length_app, Hin; simpl; lia.
    + simpl. rewrite Hin. lia.
  - rewrite !Hst.
    destruct (_peripheral (self (state w))) as [p |]; cbv beta iota.
    + rewrite !Hst.
      destruct (bleak_write_gatt_char bleak p (h - 1) v true (radio (state w)))
        as [r t1];
        simpl; rewrite transport_calls_app, length_app, Hin; simpl; lia.
    + simpl. rewrite Hin. lia.
  - rewrite !Hst.
    destruct (_peripheral (self (state w))) as [p |]; cbv beta iota.
    + unfold write_handle. rewrite call_wrapped. cbv beta iota. rewrite !Hst.
      destruct (bleak_withDelegate bleak p d (radio (state w))) as [[[] | e] t1];
        simpl.
      * destruct (bleak_waitForNotifications bleak p t t1) as [r2 t2]. simpl.
        rewrite !transport_calls_app, !length_app, !Hin. simpl. lia.
      * rewrite !transport_calls_app, !length_app, !Hin. simpl. lia.
    + simpl. rewrite Hin. lia.
  - destruct b; cbv beta iota; simpl state; simpl trace.
    + destruct (bleak_discover bleak t (radio (state w))) as [[ds | e] t1];
        simpl; rewrite !transport_calls_app, !length_app; simpl; lia.
    + simpl. lia.
Qed.

(** X16. No operation repeats a call into the transport: each makes at
    most one, [wait_for_notification] at most two, so a sequence of [n]
    operations makes at most [2 * n], whatever the transport answers. *)
Theorem transport_calls_bounded (b : bool) (os : list (@op Delegate)) (w : W) :
  List.length (transport_calls (trace (run_ops bleak b _DATA_MODE_LISTEN os w)))
  <= List.length (transport_calls (trace w)) + 2 * List.length os.
Proof.
  revert w. induction os as [| o os IH]; intros w; simpl.
  - lia.
  - pose proof (IH (run_op bleak b _DATA_MODE_LISTEN o w)) as Hrest.
    pose proof (run_op_transport_calls b o w) as Hone.
    change (fold_left (fun w0 o0 => run_op bleak b _DATA_MODE_LISTEN o0 w0) os
              (run_op bleak b _DATA_MODE_LISTEN o w))
      with (run_ops bleak b _DATA_MODE_LISTEN os
              (run_op bleak b _DATA_MODE_LISTEN o w)).
    assert (Hmost : match o with OpWaitForNotification _ _ _ => 2 | _ => 1 end <= 2)
      by (destruct o; lia).
    lia.
Qed.

Lemma run_op_without_bleak (o : @op Delegate) (w : W) :
  Disconnected w -> run_op bleak false _DATA_MODE_LISTEN o w = w.
Proof.
  intros Hd. unfold Disconnected in Hd.
  destruct o as [mac | | h | h v | h d t | t a]; unfold run_op; enter; step_body;
    try rewrite Hd; reflexivity.
Qed.

(** X13. Where bleak cannot be imported, a disconnected session goes
    nowhere: whatever operations are awaited, the world afterwards is the
    world before, with no call into the transport and nothing traced. *)
Theorem without_bleak_nothing_happens (os : list (@op Delegate)) (w : W) :
  Disconnected w ->
  run_ops bleak false _DATA_MODE_LISTEN os w = w.
Proof.
  intros Hd. induction os as [| o os IH]; simpl; [reflexivity |].
  rewrite (run_op_without_bleak o w Hd). exact IH.
Qed.

(** X15. [check_backend] never raises. It returns [True] exactly where
    bleak can be imported, and then [connect] gets as far as the
    transport; where it returns [False] it has logged the import error
    once, and [connect] and [scan_for_devices] raise that import error
    with the world left as it was. *)
Theorem check_backend_agrees_with_connect
    (b : bool) (wl : world Peripheral Delegate error_log) (w : W)
    (mac adapter0 : string) (timeout : Q) :
  let probe := await (check_backend b tt) wl in
  fst probe = Ret b
  /\ trace (snd probe) = trace wl
  /\ state (snd probe) = (if b then state wl else state wl ++ [no_bleak])
  /\ (b = true ->
      transport_calls (trace (snd (await (connect bleak b mac) w)))
      = transport_calls (trace w) ++ [BleakClient_connect mac])
  /\ (b = false ->
      await (connect bleak b mac) w = (Raise no_bleak, w)
      /\ await (scan_for_devices bleak b (timeout, adapter0)) w
         = (Raise no_bleak, w)).
Proof.
  intros probe.
  assert (Hp : probe = (Ret b, mk_world (if b then state wl else state wl ++ [no_bleak])
                                 (trace wl))).
  { subst probe.
    unfold check_backend, await, bind, async_def, ret, resume, check_backend_body.
    destruct b; destruct wl; reflexivity. }
  rewrite Hp. simpl fst. simpl snd. simpl state. simpl trace.
  split; [reflexivity | split; [reflexivity | split; [reflexivity | split]]].
  - intros ->. enter. step_body. cbv beta iota. simpl state. simpl trace.
    destruct (bleak_connect bleak mac (radio (state w))) as [[p | e] t1];
      simpl; rewrite !transport_calls_app; simpl; rewrite app_nil_r; reflexivity.
  - intros ->. enter. split; reflexivity.
Qed.

End SessionBounds.

(** ** The further properties at work *)

(** [moody] from 2: two caught failures, then the [KeyError] as it is. *)
Lemma transient_then_other_error_propagates_witness :
  transient_failures moody 2 2
  = Some ([mk_exn BleakError ["II"] None; mk_exn BleakError ["I"] None], 0)
  /\ 2 < RETRY_LIMIT
  /\ moody 0 = (Raise (mk_exn (Derived "KeyError" Exception) ["0x33"] None), 0)
  /\ except_bleak (mk_exn (Derived "KeyError" Exception) ["0x33"] None) = false
  /\ _func_wrapper (Peripheral:=nat) (Delegate:=nat) (lift moody) (mk_world 2 [])
     = (Raise (mk_exn (Derived "KeyError" Exception) ["0x33"] None),
        mk_world 0 [Call; Sleep RETRY_DELAY; LogDebug 1 3;
                    Call; Sleep RETRY_DELAY; LogDebug 2 3; Call]).
Proof.
  split; [reflexivity | split; [unfold RETRY_LIMIT; lia |
          split; [reflexivity | split; [reflexivity |]]]].
  destruct (transient_then_other_error_propagates (Peripheral:=nat) (Delegate:=nat)
              moody 2 2 0 0 _ _ [] eq_refl
              ltac:(unfold RETRY_LIMIT; lia) eq_refl eq_refl) as [Hrun _].
  exact Hrun.
Defined.

(** A read whose transport call raises leaves the backend object alone. *)
Lemma only_connect_and_disconnect_assign_self_witness :
  let w := session_at (Some 1) 1 in
  (forall mac, @OpReadHandle nat 10 <> OpConnect mac)
  /\ @OpReadHandle nat 10 <> OpDisconnect
  /\ self (state (run_op scripted_bleak true listen (OpReadHandle 10) w))
     = mk_backend "hci0" "public" (Some 1).
Proof.
  intros w.
  assert (H1 : forall mac, @OpReadHandle nat 10 <> OpConnect mac)
    by (intros mac; discriminate).
  assert (H2 : @OpReadHandle nat 10 <> OpDisconnect) by discriminate.
  split; [exact H1 | split; [exact H2 |]].
  exact (only_connect_and_disconnect_assign_self scripted_bleak true listen
           (OpReadHandle 10) w H1 H2).
Defined.



(** A scan whose discovery raises. *)
Lemma scan_failure_propagates_witness :
  let w := session_at None 1 in
  let run := await (scan_for_devices scripted_bleak true (5%Q, "hci0")) w in
  bleak_discover scripted_bleak 5%Q (radio (state w)) = (Raise dbus_error, 0)
  /\ fst run = Raise dbus_error
  /\ transport_calls (trace (snd run)) = [BleakScanner_discover 5%Q]
  /\ delays (trace (snd run)) = [].
Proof.
  intros w run. split; [reflexivity |].
  destruct (scan_failure_propagates scripted_bleak true w 5%Q "hci0"
              dbus_error 0 eq_refl eq_refl) as [Hret [Hcalls [Hdelays _]]].
  split; [exact Hret | split; [exact Hcalls | exact Hdelays]].
Defined.

(** Four operations on a disconnected session without bleak. *)
Lemma without_bleak_nothing_happens_witness :
  let w := session_at None 0 in
  Disconnected w
  /\ run_ops scripted_bleak false listen
       [OpConnect "AA:BB:CC:DD:EE:FF"; OpReadHandle 10;
        OpScanForDevices 5%Q "hci0"; OpDisconnect] w
     = w.
Proof.
  intros w. split; [reflexivity |].
  exact (without_bleak_nothing_happens scripted_bleak listen
           [OpConnect "AA:BB:CC:DD:EE:FF"; OpReadHandle 10;
            OpScanForDevices 5%Q "hci0"; OpDisconnect] w eq_refl).
Defined.

(** [wait_for_notification] when the transport answers and when
    [withDelegate] raises. *)
Lemma wait_for_notification_result_witness :
  (let w := session_at (Some 1) 0 in
   let run := await (wait_for_notification scripted_bleak true listen
                       (10%Z, 7, 5%Q)) w in
   Connected w 1
   /\ bleak_withDelegate scripted_bleak 1 7 (radio (state w)) = (Ret tt, 0)
   /\ fst run = Ret true)
  /\
  (let w := session_at (Some 1) 1 in
   let run := await (wait_for_notification scripted_bleak true listen
                       (10%Z, 7, 5%Q)) w in
   Connected w 1
   /\ bleak_withDelegate scripted_bleak 1 7 (radio (state w)) = (Raise dbus_error, 0)
   /\ fst run = Raise dbus_error /\ Connected (snd run) 1).
Proof.
  split; intros w run; (split; [reflexivity | split; [reflexivity |]]).
  - destruct (wait_for_notification_result scripted_bleak true listen
                w 1 10 7 5%Q eq_refl) as [Hok _].
    destruct (Hok 0 eq_refl) as [Hret _]. exact Hret.
  - destruct (wait_for_notification_result scripted_bleak true listen
                w 1 10 7 5%Q eq_refl) as [_ [Hraise Hcon]].
    destruct (Hraise dbus_error 0 eq_refl) as [Hret _].
    split; [exact Hret | exact Hcon].
Defined.

(** The probe with and without bleak. *)
Lemma check_backend_agrees_with_connect_witness :
  (fst (await (check_backend (Peripheral:=nat) (Delegate:=nat) true tt)
          (mk_world [] [])) = Ret true
   /\ transport_calls
        (trace (snd (await (connect scripted_bleak true "AA:BB:CC:DD:EE:FF")
                       (session_at None 0))))
      = [BleakClient_connect "AA:BB:CC:DD:EE:FF"])
  /\
  (await (check_backend (Peripheral:=nat) (Delegate:=nat) false tt) (mk_world [] [])
   = (Ret false, mk_world [no_bleak] [])
   /\ await (connect scripted_bleak false "AA:BB:CC:DD:EE:FF") (session_at None 0)
      = (Raise no_bleak, session_at None 0)
   /\ await (scan_for_devices scripted_bleak false (5%Q, "hci0")) (session_at None 0)
      = (Raise no_bleak, session_at None 0)).
Proof.
  split.
  - destruct (check_backend_agrees_with_connect scripted_bleak true
                (mk_world [] []) (session_at None 0)
                "AA:BB:CC:DD:EE:FF" "hci0" 5%Q) as [Hret [_ [_ [Hyes _]]]].
    split; [exact Hret | exact (Hyes eq_refl)].
  - destruct (check_backend_agrees_with_connect scripted_bleak false
                (mk_world [] []) (session_at None 0)
                "AA:BB:CC:DD:EE:FF" "hci0" 5%Q) as [_ [_ [_ [_ Hno]]]].
    split; [reflexivity | exact (Hno eq_refl)].
Defined.

(** [disconnect] on a backend fresh from [__init__]. *)
Lemma disconnect_when_disconnected_is_noop_witness :
  let w := mk_world (mk_session (@__init__ nat "hci0" "public") 0) [] in
  Disconnected (Delegate:=nat) w
  /\ await (disconnect scripted_bleak true tt) w = (Ret tt, emit Call w).
Proof.
  intros w.
  destruct (disconnect_when_disconnected_is_noop scripted_bleak true w
              "hci0" "public" 0 []) as [Hfresh Hnoop].
  split; [exact Hfresh |].
  destruct (Hnoop Hfresh) as [Hrun _]. exact Hrun.
Defined.

(** The same scan from a fresh session and from a connected one. *)
Lemma scan_for_devices_depends_on_transport_only_witness :
  let w1 := session_at None 0 in
  let w2 := session_at (Some 1) 0 in
  radio (state w1) = radio (state w2)
  /\ fst (await (scan_for_devices scripted_bleak true (5%Q, "hci0")) w1)
     = fst (await (scan_for_devices scripted_bleak true (5%Q, "hci1")) w2).
Proof.
  intros w1 w2. split; [reflexivity |].
  destruct (scan_for_devices_depends_on_transport_only scripted_bleak true
              w1 w2 5%Q "hci0" "hci1" eq_refl) as [Hsame _].
  exact Hsame.
Defined.
